(** * sandwine: the sandbox configuration builder of [sandwine/_main.py]

    A shallow embedding of [parse_path_colon_access], [single_trailing_sep],
    [ArgvBuilder], [create_bwrap_argv] and [main], with the properties of the
    mount plan, the environment plan, the search-path filter and the argv
    assembly proved about it.

    Python [str] values are modelled by [string]; comparison of [str] is by
    code point, which on UTF-8 encoded text is the byte-wise lexicographic
    comparison [String.compare]. *)

From Stdlib Require Import String Ascii List Bool Arith NArith ZArith Lia.
From Stdlib Require Import Sorting.Sorted Sorting.Permutation.
From Stdlib Require Import Numbers.DecimalString Numbers.HexadecimalString.
Import ListNotations.
Local Open Scope string_scope.
Local Open Scope list_scope.

(** ** Python string primitives used by the module *)

Module Py.

(** [os.sep] and [os.pathsep] on the POSIX hosts bubblewrap runs on. *)
Definition os_sep : ascii := "/"%char.
Definition os_pathsep : ascii := ":"%char.

(** [c in s] for a one-character [c]. *)
Fixpoint contains (c : ascii) (s : string) : bool :=
  match s with
  | EmptyString => false
  | String a s' => Ascii.eqb a c || contains c s'
  end.

(** [s.rstrip(c)]: drop every trailing occurrence of [c]. *)
Fixpoint rstrip (c : ascii) (s : string) : string :=
  match s with
  | EmptyString => EmptyString
  | String a s' =>
      match rstrip c s' with
      | EmptyString => if Ascii.eqb a c then EmptyString else String a EmptyString
      | r => String a r
      end
  end.

(** The cut of [s] at its last [c], when there is one. *)
Fixpoint rcut (c : ascii) (s : string) : option (string * string) :=
  match s with
  | EmptyString => None
  | String a s' =>
      match rcut c s' with
      | Some (p, q) => Some (String a p, q)
      | None => if Ascii.eqb a c then Some (EmptyString, s') else None
      end
  end.

(** [s.rsplit(c, 1)]: at most one split, taken from the right. *)
Definition rsplit1 (c : ascii) (s : string) : list string :=
  match rcut c s with
  | Some (p, q) => [p; q]
  | None => [s]
  end.

(** [s.split(c)]: split at every [c]; never the empty list. *)
Fixpoint split (c : ascii) (s : string) : list string :=
  match s with
  | EmptyString => [EmptyString]
  | String a s' =>
      if Ascii.eqb a c then EmptyString :: split c s'
      else match split c s' with
           | [] => [String a EmptyString]
           | h :: t => String a h :: t
           end
  end.

(** [sep.join(l)]. *)
Definition join (sep : string) (l : list string) : string := String.concat sep l.

(** [s.startswith(p)]. *)
Definition startswith (s p : string) : bool := String.prefix p s.

(** [str(n)] for a non-negative integer, as an f-string renders it. *)
Definition str_of_N (n : N) : string :=
  DecimalString.NilZero.string_of_uint (N.to_uint n).

(** [hex(n)[2:]]: the lower-case hexadecimal digits of [n]. *)
Definition hex_tail (n : N) : string :=
  HexadecimalString.NilZero.string_of_uint (N.to_hex_uint n).

(** Insertion of [x] into a list sorted by [key], before the first element
    whose key is not smaller: the step of a stable sort that takes the
    elements from the right. *)
Fixpoint insert_by {A : Type} (key : A -> string) (x : A) (l : list A) : list A :=
  match l with
  | [] => [x]
  | y :: l' => if String.leb (key x) (key y) then x :: y :: l'
               else y :: insert_by key x l'
  end.

(** [sorted(l, key=key)]: Python's sort is stable, and a stable sort is
    determined by its input; this is the stable insertion sort. *)
Definition sorted {A : Type} (key : A -> string) (l : list A) : list A :=
  fold_right (insert_by key) [] l.

End Py.

(** Ascending order of the keys, ties allowed. *)
Definition key_le {A : Type} (key : A -> string) (x y : A) : Prop :=
  String.leb (key x) (key y) = true.

(** Ascending order of the keys, ties excluded. *)
Definition key_lt {A : Type} (key : A -> string) (x y : A) : Prop :=
  String.ltb (key x) (key y) = true.

(** [l1] is [l2] with some elements left out, the others in their order. *)
Inductive Subseq {A : Type} : list A -> list A -> Prop :=
| Subseq_nil : Subseq [] []
| Subseq_keep (x : A) (l1 l2 : list A) : Subseq l1 l2 -> Subseq (x :: l1) (x :: l2)
| Subseq_drop (x : A) (l1 l2 : list A) : Subseq l1 l2 -> Subseq l1 (x :: l2).

(** ** Data model *)

Inductive AccessMode : Type := READ_ONLY | READ_WRITE.

Inductive MountMode : Type :=
  DEVTMPFS | BIND_RO | BIND_RW | BIND_DEV | TMPFS | PROC.

(** The members of [sandwine._x11.X11Mode] that [add_x11_arguments] stores in
    [config.x11]. *)
Inductive X11Mode : Type :=
  X11_NONE | X11_AUTO | X11_NXAGENT | X11_XEPHYR | X11_XNEST | X11_XPRA
  | X11_XVFB | X11_HOST.

Definition x11_enabled (m : X11Mode) : bool :=
  match m with X11_NONE => false | _ => true end.

Record MountTask : Type := mkMountTask {
  mode : MountMode;
  target : string;
  source : option string;
  required : bool
}.

(** Exceptions that leave [create_bwrap_argv]. [ValueError c] carries the
    candidate whose [repr] the message quotes; [FileNotFoundError] is the one
    of [subprocess.call], [OSError] the one of [os.makedirs], with the name
    of its class. *)
Inductive Exception : Type :=
| ValueError (candidate : string)
| SystemExit (code : Z)
| KeyError (key : string)
| AttributeError (name : string)
| FileNotFoundError (filename : string)
| OSError (errname : string).

Inductive result (A : Type) : Type :=
| Ok (a : A)
| Raise (e : Exception).
Arguments Ok {A} a.
Arguments Raise {A} e.

(** ** [single_trailing_sep] and [parse_path_colon_access] *)

Definition single_trailing_sep (path : string) : string :=
  Py.rstrip Py.os_sep path ++ String Py.os_sep EmptyString.

Definition parse_path_colon_access (candidate : string) : result (string * AccessMode) :=
  if negb (Py.contains ":" candidate) then Raise (ValueError candidate)
  else
    match Py.rsplit1 ":" candidate with
    | [path; access_mode_candidate] =>
        if access_mode_candidate =? "ro" then Ok (path, READ_ONLY)
        else if access_mode_candidate =? "rw" then Ok (path, READ_WRITE)
        else Raise (ValueError candidate)
    | _ => Raise (ValueError candidate)
    end.

(** A token that [parse_path_colon_access] rejects. *)
Definition malformed (candidate : string) : bool :=
  match parse_path_colon_access candidate with
  | Ok _ => false
  | Raise _ => true
  end.

(** ** [ArgvBuilder] *)

Record ArgvBuilder : Type := mkArgvBuilder { _groups : list (list string) }.

Module Argv.

Definition init : ArgvBuilder := mkArgvBuilder [].

Definition add (b : ArgvBuilder) (args : list string) : ArgvBuilder :=
  match args with
  | [] => b
  | _ => mkArgvBuilder (_groups b ++ [args])
  end.

Definition iter_flat (b : ArgvBuilder) : list string := concat (_groups b).

Definition iter_groups (b : ArgvBuilder) : list (list string) := _groups b.

End Argv.

(** ** The parsed command line *)

(** The namespace [parse_command_line] returns; [x11_display_number] is the
    attribute [main] sets when a display is enabled. *)
Record Config : Type := mkConfig {
  argv_0 : option string;
  argv_1_plus : list string;
  x11 : X11Mode;
  x11_display_number : option N;
  network : bool;
  pulseaudio : bool;
  dotwine : option string;
  extra_binds : list string;
  configure : bool;
  with_pty : bool;
  with_wine : bool;
  second_try : bool
}.

(** ** The host *)

(** What the module reads from and does to the machine it runs on: the file
    system state [World] with the [os] and [os.path] calls on it, the process
    environment, and the library calls whose results the builder only passes
    on ([shlex.join], [random.randint], [subprocess.call] and the calls into
    [sandwine._x11]). [os_makedirs] is the file system that the call leaves,
    whether it returns or raises, and [os_makedirs_error] the class of the
    [OSError] it raises, if any; [x11_context_enter] and [x11_context_exit]
    are the setup and the teardown of the display session, with the exception
    they raise, if any, and the file system they leave. *)
Record Host : Type := mkHost {
  World : Type;
  os_path_exists : World -> string -> bool;
  os_makedirs : string -> World -> World;
  os_makedirs_error : string -> World -> option string;
  os_path_realpath : World -> string -> string;
  os_path_abspath : string -> string;
  os_path_expanduser : string -> string;
  os_getuid : N;
  os_environ_get : string -> option string;
  random_randint : nat -> N;
  shlex_join : list string -> string;
  subprocess_call : list string -> option Z;
  get_unix_socket : N -> string;
  detect_and_require_nested_x11 : X11Mode;
  find_used : N;
  find_unused : N -> N;
  x11_context_enter : X11Mode -> N -> World -> option Exception * World;
  x11_context_exit : X11Mode -> N -> World -> option Exception * World
}.

(** The calls the module makes that reach outside the process. *)
Inductive Event : Type :=
| EvExists (path : string)
| EvMakedirs (path : string)
| EvCall (argv : list string)
| EvX11Enter (mode : X11Mode) (number : N)
| EvX11Exit (mode : X11Mode) (number : N).

(** Python dictionaries with [str] keys, in insertion order. *)
Definition dict (V : Type) : Type := list (string * V).

Fixpoint dict_set {V : Type} (d : dict V) (k : string) (v : V) : dict V :=
  match d with
  | [] => [(k, v)]
  | (k', v') :: d' =>
      if k' =? k then (k', v) :: d' else (k', v') :: dict_set d' k v
  end.

Definition dict_fromkeys {V : Type} (keys : list string) (v : V) : dict V :=
  fold_left (fun d k => dict_set d k v) keys [].

(** [mode in (MountMode.BIND_RO, MountMode.BIND_RW, MountMode.BIND_DEV)]. *)
Definition is_bind (m : MountMode) : bool :=
  match m with
  | BIND_RO | BIND_RW | BIND_DEV => true
  | DEVTMPFS | TMPFS | PROC => false
  end.

Definition MountTask_default (m : MountMode) (t : string) : MountTask :=
  mkMountTask m t None true.

(** The double quote, which the shell fragments of the wrappers contain. *)
Definition dq : string := String (ascii_of_nat 34) EmptyString.
Definition quoted (s : string) : string := dq ++ s ++ dq.

(** [MountMode.BIND_RW if access == AccessMode.READ_WRITE else MountMode.BIND_RO]. *)
Definition bind_mode_of (access : AccessMode) : MountMode :=
  match access with
  | READ_WRITE => BIND_RW
  | READ_ONLY => BIND_RO
  end.

(** The variables that are copied from the host when it has them. *)
Definition inherited : list string := ["HOME"; "TERM"; "USER"; "WINEDEBUG"].

(** The local variables of [create_bwrap_argv] when it reaches the mount
    stack (line 283). *)
Record Plan : Type := mkPlan {
  mount_tasks : list MountTask;
  env_tasks : dict (option string);
  unshare_args : list string;
  argv_so_far : ArgvBuilder;
  run_winecfg : bool;
  x11_unix_socket : option string
}.

Section Builder.

Variable h : Host.

(** *** State and exceptions *)

Record State : Type := mkState { world : World h; trace : list Event }.

Definition M (A : Type) : Type := State -> result A * State.

Definition ret {A : Type} (a : A) : M A := fun s => (Ok a, s).

Definition raise {A : Type} (e : Exception) : M A := fun s => (Raise e, s).

Definition bind {A B : Type} (m : M A) (f : A -> M B) : M B :=
  fun s =>
    match m s with
    | (Ok a, s') => f a s'
    | (Raise e, s') => (Raise e, s')
    end.

Definition lift {A : Type} (r : result A) : M A := fun s => (r, s).

Notation "x <- m ;; k" := (bind m (fun x => k))
  (at level 61, m at next level, right associativity).

(** The state after a call that leaves the file system as it is. *)
Definition logged (s : State) (ev : Event) : State :=
  mkState (world s) (trace s ++ [ev]).

(** [os.path.exists(path)]. *)
Definition path_exists (path : string) : M bool :=
  fun s => (Ok (os_path_exists h (world s) path), logged s (EvExists path)).

(** [os.makedirs(path, mode=0o700, exist_ok=True)]: it returns, or raises an
    [OSError] ([FileNotFoundError] for the empty path, [PermissionError],
    [FileExistsError], ...). *)
Definition makedirs (path : string) : M unit :=
  fun s =>
    let s' := mkState (os_makedirs h path (world s)) (trace s ++ [EvMakedirs path]) in
    match os_makedirs_error h path (world s) with
    | None => (Ok tt, s')
    | Some errname => (Raise (OSError errname), s')
    end.

(** [os.path.realpath] on the current file system. *)
Definition realpath_all (paths : list string) : M (list string) :=
  fun s => (Ok (map (os_path_realpath h (world s)) paths), s).

(** [subprocess.call(argv)]; a missing binary raises [FileNotFoundError]. *)
Definition call (argv : list string) : M Z :=
  fun s =>
    let s' := logged s (EvCall argv) in
    match subprocess_call h argv with
    | Some rc => (Ok rc, s')
    | None => (Raise (FileNotFoundError (hd EmptyString argv)), s')
    end.

(** *** [random_hostname] *)

Definition random_hostname : string :=
  Py.join "" (map (fun i => Py.hex_tail (random_randint h i)) (seq 0 12)).

(** *** Lines 202-281: the mount tasks, the environment tasks and the flags
    that precede the mount stack *)

Definition baseline_mount_tasks (my_home : string) : list MountTask :=
  [ MountTask_default TMPFS "/";
    MountTask_default BIND_RO "/bin";
    MountTask_default DEVTMPFS "/dev";
    MountTask_default BIND_DEV "/dev/dri";
    MountTask_default BIND_RO "/etc";
    MountTask_default BIND_RO "/lib";
    mkMountTask BIND_RO "/lib32" None false;
    MountTask_default BIND_RO "/lib64";
    MountTask_default PROC "/proc";
    MountTask_default BIND_RO "/sys";
    MountTask_default TMPFS "/tmp";
    MountTask_default BIND_RO "/usr";
    MountTask_default TMPFS my_home ].

(** Lines 268-272: [for bind in config.extra_binds]. *)
Fixpoint add_extra_binds (binds : list string) (tasks : list MountTask)
  : result (list MountTask) :=
  match binds with
  | [] => Ok tasks
  | bind :: rest =>
      match parse_path_colon_access bind with
      | Ok (mount_target, mount_access) =>
          add_extra_binds rest
            (tasks ++ [MountTask_default (bind_mode_of mount_access)
                                         (os_path_abspath h mount_target)])
      | Raise e => Raise e
      end
  end.

(** Lines 274-281: the program binary and its [.exe] spellings. *)
Definition program_tasks (config : Config) : list MountTask :=
  let argv_0_or_empty := match argv_0 config with Some a => a | None => "" end in
  if Py.contains Py.os_sep argv_0_or_empty then
    let real_argv_0 := os_path_abspath h argv_0_or_empty in
    [ mkMountTask BIND_RO real_argv_0 None false;
      mkMountTask BIND_RO (real_argv_0 ++ ".exe")%string None false;
      mkMountTask BIND_RO (real_argv_0 ++ ".EXE")%string None false ]
  else [].

Definition build_plan (config : Config) : M Plan :=
  let my_home := os_path_expanduser h "~" in
  let mount_tasks := baseline_mount_tasks my_home in
  let env_tasks := dict_fromkeys inherited None in
  let env_tasks := dict_set env_tasks "container" (Some "sandwine") in
  let unshare_args := ["--unshare-user"; "--unshare-all"] in
  let argv := Argv.init in
  let argv := Argv.add argv ["bwrap"] in
  let argv := Argv.add argv ["--disable-userns"] in
  let argv := Argv.add argv ["--die-with-parent"] in
  (* Hostname *)
  let hostname := random_hostname in
  let env_tasks := dict_set env_tasks "HOSTNAME" (Some hostname) in
  let argv := Argv.add argv ["--hostname"; hostname] in
  (* Networking *)
  let unshare_args :=
    if network config then unshare_args ++ ["--share-net"] else unshare_args in
  let mount_tasks :=
    if network config then
      mount_tasks ++
        [ mkMountTask BIND_RO "/run/NetworkManager/resolv.conf" None false;
          mkMountTask BIND_RO "/run/systemd/resolve/stub-resolv.conf" None false ]
    else mount_tasks in
  (* Sound *)
  let pulseaudio_socket :=
    ("/run/user/" ++ Py.str_of_N (os_getuid h) ++ "/pulse/native")%string in
  let env_tasks :=
    if pulseaudio config then
      dict_set env_tasks "PULSE_SERVER" (Some ("unix:" ++ pulseaudio_socket)%string)
    else env_tasks in
  let mount_tasks :=
    if pulseaudio config then
      mount_tasks ++ [MountTask_default BIND_RW pulseaudio_socket]
    else mount_tasks in
  (* X11 *)
  x <- (if x11_enabled (x11 config) then
          match x11_display_number config with
          | Some n =>
              let x11_unix_socket := get_unix_socket h n in
              ret (Some x11_unix_socket,
                   mount_tasks ++ [MountTask_default BIND_RW x11_unix_socket],
                   dict_set env_tasks "DISPLAY" (Some (":" ++ Py.str_of_N n)%string))
          | None => raise (AttributeError "x11_display_number")
          end
        else ret (None, mount_tasks, env_tasks)) ;;
  let '(x11_unix_socket, mount_tasks, env_tasks) := x in
  (* Wine *)
  let run_winecfg :=
    x11_enabled (x11 config)
    && (configure config || match dotwine config with None => true | Some _ => false end) in
  let dotwine_target_path := os_path_expanduser h "~/.wine" in
  w <- match dotwine config with
       | Some dw =>
           pa <- lift (parse_path_colon_access dw) ;;
           let '(dotwine_source_path, dotwine_access) := pa in
           let mount_mode := bind_mode_of dotwine_access in
           let mount_tasks :=
             mount_tasks ++
               [mkMountTask mount_mode dotwine_target_path (Some dotwine_source_path) true] in
           e <- path_exists dotwine_source_path ;;
           if negb e then
             _ <- makedirs dotwine_source_path ;;
             ret (mount_tasks, true)
           else ret (mount_tasks, run_winecfg)
       | None =>
           ret (mount_tasks ++ [MountTask_default TMPFS dotwine_target_path], run_winecfg)
       end ;;
  let '(mount_tasks, run_winecfg) := w in
  (* Extra binds *)
  mount_tasks <- lift (add_extra_binds (extra_binds config) mount_tasks) ;;
  (* Program *)
  let mount_tasks := mount_tasks ++ program_tasks config in
  ret (mkPlan mount_tasks env_tasks unshare_args argv run_winecfg x11_unix_socket).

(** The host path that [--dotwine] names, when its token parses. *)
Definition dotwine_source (config : Config) : option string :=
  match dotwine config with
  | Some dw =>
      match parse_path_colon_access dw with
      | Ok (dotwine_source_path, _) => Some dotwine_source_path
      | Raise _ => None
      end
  | None => None
  end.

(** The condition of line 261: [--dotwine] names a path that does not
    exist. *)
Definition dotwine_fresh (w : World h) (config : Config) : bool :=
  match dotwine_source config with
  | Some dotwine_source_path => negb (os_path_exists h w dotwine_source_path)
  | None => false
  end.

(** *** Lines 289-315: the mount stack *)

(** The flag of a bind mode. *)
Definition bind_flag (m : MountMode) : string :=
  match m with
  | BIND_RO => "--ro-bind"
  | BIND_RW => "--bind"
  | _ => "--dev-bind"
  end.

(** [X11Mode(config.x11) != X11Mode.NONE and mount_task.target == x11_unix_socket]. *)
Definition is_display_socket (config : Config) (x11_unix_socket : option string)
           (mount_task : MountTask) : bool :=
  x11_enabled (x11 config)
  && match x11_unix_socket with
     | Some sock => target mount_task =? sock
     | None => false
     end.

(** [mount_task.source], after the assignment of line 298. *)
Definition source_or_target (mount_task : MountTask) : string :=
  match source mount_task with
  | Some src => src
  | None => target mount_task
  end.

Fixpoint render_mount_tasks (config : Config) (x11_unix_socket : option string)
         (sorted_mount_tasks : list MountTask) (argv : ArgvBuilder) : M ArgvBuilder :=
  match sorted_mount_tasks with
  | [] => ret argv
  | mount_task :: rest =>
      match mode mount_task with
      | TMPFS =>
          render_mount_tasks config x11_unix_socket rest
            (Argv.add argv ["--tmpfs"; target mount_task])
      | DEVTMPFS =>
          render_mount_tasks config x11_unix_socket rest
            (Argv.add argv ["--dev"; target mount_task])
      | PROC =>
          render_mount_tasks config x11_unix_socket rest
            (Argv.add argv ["--proc"; target mount_task])
      | BIND_RO | BIND_RW | BIND_DEV =>
          let src := source_or_target mount_task in
          e <- path_exists src ;;
          if negb e && negb (is_display_socket config x11_unix_socket mount_task) then
            if required mount_task then raise (SystemExit 1)
            else render_mount_tasks config x11_unix_socket rest argv
          else
            render_mount_tasks config x11_unix_socket rest
              (Argv.add argv [bind_flag (mode mount_task); src; target mount_task])
      end
  end.

(** The argument group of a task that is rendered: the [argv.add] of its
    branch. *)
Definition mount_group (mount_task : MountTask) : list string :=
  match mode mount_task with
  | TMPFS => ["--tmpfs"; target mount_task]
  | DEVTMPFS => ["--dev"; target mount_task]
  | PROC => ["--proc"; target mount_task]
  | m => [bind_flag m; source_or_target mount_task; target mount_task]
  end.

(** The condition of line 300 on a bind-type task: its source does not
    exist and it is not the display socket. *)
Definition missing (w : World h) (config : Config) (x11_unix_socket : option string)
           (mount_task : MountTask) : bool :=
  is_bind (mode mount_task)
  && (negb (os_path_exists h w (source_or_target mount_task))
      && negb (is_display_socket config x11_unix_socket mount_task)).

(** The probes of [os.path.exists] that a list of tasks causes. *)
Definition probes (tasks : list MountTask) : list Event :=
  map (fun t => EvExists (source_or_target t)) (filter (fun t => is_bind (mode t)) tasks).

(** *** Lines 317-320: the search path *)

(** The condition of the comprehension of line 319. *)
Definition path_available (sorted_mount_tasks : list MountTask)
           (candidate_path : string) : bool :=
  existsb
    (fun mount_task =>
       Py.startswith (single_trailing_sep candidate_path)
                     (single_trailing_sep (target mount_task))
       && is_bind (mode mount_task))
    (rev sorted_mount_tasks).

Definition filter_path (sorted_mount_tasks : list MountTask) : M string :=
  match os_environ_get h "PATH" with
  | None => raise (KeyError "PATH")
  | Some path =>
      let candidate_paths := Py.split Py.os_pathsep path ++ ["/usr/lib/wine"] in
      real <- realpath_all candidate_paths ;;
      let available_paths := filter (path_available sorted_mount_tasks) real in
      ret (Py.join (String Py.os_pathsep EmptyString) available_paths)
  end.

(** *** Lines 322-329: the environment *)

Fixpoint render_env (items : list (string * option string)) (argv : ArgvBuilder)
  : ArgvBuilder :=
  match items with
  | [] => argv
  | (env_var, env_value) :: rest =>
      match env_value with
      | Some v => render_env rest (Argv.add argv ["--setenv"; env_var; v])
      | None =>
          match os_environ_get h env_var with
          | Some v => render_env rest (Argv.add argv ["--setenv"; env_var; v])
          | None => render_env rest argv
          end
      end
  end.

(** The argument group of one environment task, if it has one. *)
Definition env_group (item : string * option string) : list (list string) :=
  match snd item with
  | Some v => [["--setenv"; fst item; v]]
  | None =>
      match os_environ_get h (fst item) with
      | Some v => [["--setenv"; fst item; v]]
      | None => []
      end
  end.

(** *** Lines 331-355: the wrappers and the inner command *)

Definition wineserver_wrapper : list string :=
  ["sh"; "-c";
   ("wineserver -p0 && " ++ quoted "$0" ++ " " ++ quoted "$@"
      ++ " ; ret=$? ; wineserver -k ; exit ${ret}")%string].

Definition winecfg_wrapper : list string :=
  ["sh"; "-c"; ("winecfg && exec " ++ quoted "$0" ++ " " ++ quoted "$@")%string].

Definition second_try_wrapper : list string :=
  ["sh"; "-c";
   (quoted "$0" ++ " " ++ quoted "$@" ++ " || exec "
      ++ quoted "$0" ++ " " ++ quoted "$@")%string].

Definition add_command (config : Config) (run_winecfg : bool) (argv : ArgvBuilder)
  : ArgvBuilder :=
  let argv := Argv.add argv ["--"] in
  let argv := if with_wine config then Argv.add argv wineserver_wrapper else argv in
  let argv :=
    if run_winecfg && with_wine config then Argv.add argv winecfg_wrapper else argv in
  let argv := if second_try config then Argv.add argv second_try_wrapper else argv in
  match argv_0 config with
  | Some a0 =>
      let inner_argv :=
        (if with_wine config then ["wine"; a0] else [a0]) ++ argv_1_plus config in
      if with_pty config then
        Argv.add argv
          ["script"; "-e"; "-q"; "-c"; ("exec " ++ shlex_join h inner_argv)%string; "/dev/null"]
      else Argv.add argv inner_argv
  | None => Argv.add argv ["true"]
  end.

(** The innermost command, lines 346-355. *)
Definition inner_command (config : Config) : list string :=
  match argv_0 config with
  | Some a0 =>
      let inner_argv :=
        (if with_wine config then ["wine"; a0] else [a0]) ++ argv_1_plus config in
      if with_pty config then
        ["script"; "-e"; "-q"; "-c"; ("exec " ++ shlex_join h inner_argv)%string; "/dev/null"]
      else inner_argv
  | None => ["true"]
  end.

(** The wrappers between the separator and the innermost command. *)
Definition wrappers (config : Config) (run_winecfg : bool) : list (list string) :=
  (if with_wine config then [wineserver_wrapper] else [])
  ++ (if run_winecfg && with_wine config then [winecfg_wrapper] else [])
  ++ (if second_try config then [second_try_wrapper] else []).

(** *** [create_bwrap_argv] *)

Definition create_bwrap_argv (config : Config) : M ArgvBuilder :=
  plan <- build_plan config ;;
  (* Linux Namespaces *)
  let argv := Argv.add (argv_so_far plan) (unshare_args plan) in
  (* Mount stack *)
  let sorted_mount_tasks := Py.sorted target (mount_tasks plan) in
  argv <- render_mount_tasks config (x11_unix_socket plan) sorted_mount_tasks argv ;;
  (* Filter ${PATH} *)
  path <- filter_path sorted_mount_tasks ;;
  let env_tasks := dict_set (env_tasks plan) "PATH" (Some path) in
  (* Create environment *)
  let argv := Argv.add argv ["--clearenv"] in
  let argv := render_env (Py.sorted fst env_tasks) argv in
  ret (add_command config (run_winecfg plan) argv).

(** *** [require_recent_bubblewrap] and [main] *)

(** The capability probe. *)
Definition probe : list string := ["bwrap"; "--disable-userns"; "--help"].

Definition require_recent_bubblewrap : M unit :=
  rc <- call probe ;;
  if (rc =? 0)%Z then ret tt else raise (SystemExit 1).

(** Lines 378-390: the display mode and number, from [sandwine._x11]. *)
Definition resolve_x11 (config : Config) : Config :=
  if x11_enabled (x11 config) then
    let mode :=
      match x11 config with
      | X11_AUTO => detect_and_require_nested_x11 h
      | m => m
      end in
    let number :=
      match mode with
      | X11_HOST => find_used h
      | X11_XPRA => find_unused h 10
      | _ => find_unused h 0
      end in
    mkConfig (argv_0 config) (argv_1_plus config) mode (Some number)
             (network config) (pulseaudio config) (dotwine config)
             (extra_binds config) (configure config) (with_pty config)
             (with_wine config) (second_try config)
  else config.

(** [x11context], line 392 and 394: the display session of
    [create_x11_context] for the mode and the number that [main] has set, or
    [nullcontext()]. Making the session object does nothing; the session
    starts at [with x11context:]. *)
Definition x11context (config resolved : Config) : option (X11Mode * N) :=
  if x11_enabled (x11 config) then
    match x11_display_number resolved with
    | Some number => Some (x11 resolved, number)
    | None => None
    end
  else None.

(** [x11context.__enter__()]. *)
Definition context_enter (ctx : option (X11Mode * N)) : M unit :=
  fun s =>
    match ctx with
    | None => (Ok tt, s)
    | Some (mode, number) =>
        let (e, w) := x11_context_enter h mode number (world s) in
        (match e with None => Ok tt | Some e => Raise e end,
         mkState w (trace s ++ [EvX11Enter mode number]))
    end.

(** [x11context.__exit__(...)]. *)
Definition context_exit (ctx : option (X11Mode * N)) : M unit :=
  fun s =>
    match ctx with
    | None => (Ok tt, s)
    | Some (mode, number) =>
        let (e, w) := x11_context_exit h mode number (world s) in
        (match e with None => Ok tt | Some e => Raise e end,
         mkState w (trace s ++ [EvX11Exit mode number]))
    end.

(** [with x11context: body]: the body runs when the session has started,
    and the session is torn down whatever the body did. *)
Definition with_context {A : Type} (ctx : option (X11Mode * N)) (body : M A) : M A :=
  fun s =>
    match context_enter ctx s with
    | (Raise e, s1) => (Raise e, s1)
    | (Ok _, s1) =>
        let (r, s2) := body s1 in
        match context_exit ctx s2 with
        | (Raise e, s3) => (Raise e, s3)
        | (Ok _, s3) => (r, s3)
        end
    end.

(** Lines 402-406: the executor's return code, 127 when its binary is not
    found. *)
Definition call_executor (argv : list string) : M Z :=
  fun s =>
    match call argv s with
    | (Ok exit_code, s') => (Ok exit_code, s')
    | (Raise (FileNotFoundError _), s') => (Ok 127%Z, s')
    | (Raise e, s') => (Raise e, s')
    end.

(** [main] after [parse_command_line], up to [sys.exit(exit_code)]: logging
    and [announce_to] are left out, and no [KeyboardInterrupt] arrives. *)
Definition main (config : Config) : M unit :=
  _ <- require_recent_bubblewrap ;;
  let resolved := resolve_x11 config in
  let ctx := x11context config resolved in
  argv_builder <- create_bwrap_argv resolved ;;
  let argv := Argv.iter_flat argv_builder in
  exit_code <- with_context ctx (call_executor argv) ;;
  raise (SystemExit exit_code).

(** The exit status of the interpreter: the argument of [sys.exit] as the
    system reports it, modulo 256, and 1 for any other exception that
    reaches the top. *)
Definition exit_status {A : Type} (r : result A) : Z :=
  match r with
  | Ok _ => 0
  | Raise (SystemExit code) => code mod 256
  | Raise _ => 1
  end.

(** The calls of [subprocess.call] other than the capability probe. *)
Definition executor_calls (t : list Event) : list (list string) :=
  flat_map
    (fun ev =>
       match ev with
       | EvCall argv =>
           if list_eq_dec string_dec argv probe then [] else [argv]
       | _ => []
       end) t.

(** A computation that does not call the executor. *)
Definition quiet {A : Type} (m : M A) : Prop :=
  forall s, executor_calls (trace (snd (m s))) = executor_calls (trace s).

End Builder.

Arguments ret {h A} a.
Arguments raise {h A} e.
Arguments bind {h A B} m f.
Arguments lift {h A} r.
Arguments exit_status {A} r.
Arguments quiet {h A} m.
Arguments logged {h} s ev.

(** ** The rest of the module *)

(** [AccessMode.value]: the token that names the access mode. *)
Definition AccessMode_value (access : AccessMode) : string :=
  match access with
  | READ_ONLY => "ro"
  | READ_WRITE => "rw"
  end.

(** The tasks that one round of the loop of lines 269-272 adds for a token
    that parses. *)
Definition extra_bind_task (h : Host) (bind : string) : list MountTask :=
  match parse_path_colon_access bind with
  | Ok (mount_target, mount_access) =>
      [MountTask_default (bind_mode_of mount_access) (os_path_abspath h mount_target)]
  | Raise _ => []
  end.

(** [pulseaudio_socket], line 243. *)
Definition pulseaudio_socket (h : Host) : string :=
  ("/run/user/" ++ Py.str_of_N (os_getuid h) ++ "/pulse/native")%string.

(** [ArgvBuilder.announce_to]: the lines it prints, in order. *)
Definition announce_to (h : Host) (b : ArgvBuilder) : list string :=
  map (fun ig : nat * list string =>
         let (i, group) := ig in
         let prefix := if Nat.eqb i 0 then "# " else "    " in
         let flat_args := shlex_join h group in
         let suffix := if Nat.eqb i (length (_groups b) - 1) then "" else " \" in
         (prefix ++ flat_args ++ suffix)%string)
      (combine (seq 0 (length (_groups b))) (_groups b)).

(** A lower-case hexadecimal digit. *)
Definition is_hex_digit (c : ascii) : bool :=
  existsb (Ascii.eqb c) (list_ascii_of_string "0123456789abcdef").

(** Every character of [s] satisfies [p]. *)
Fixpoint string_forall (p : ascii -> bool) (s : string) : bool :=
  match s with
  | EmptyString => true
  | String c s' => p c && string_forall p s'
  end.

(** The names of the variables that [create_bwrap_argv] may set. *)
Definition env_names (config : Config) : list string :=
  inherited ++ ["container"; "HOSTNAME"; "PATH"]
  ++ (if pulseaudio config then ["PULSE_SERVER"] else [])
  ++ (if x11_enabled (x11 config) then ["DISPLAY"] else []).

(** ** A concrete host, for evaluating the builder *)

Module Sample.

Definition lookup (env : list (string * string)) (k : string) : option string :=
  option_map snd (find (fun kv => fst kv =? k) env).

(** A host whose file system is the list of the paths that exist, without
    symbolic links or relative paths; the home directory is [/home/u],
    [os.makedirs] fails on the empty path only, and the display session
    starts, making its socket, and stops without failure. *)
Definition host (env : list (string * string)) : Host :=
  {| World := list string;
     os_path_exists := fun w p => existsb (String.eqb p) w;
     os_makedirs := fun p w => if p =? "" then w else p :: w;
     os_makedirs_error := fun p _ => if p =? "" then Some "FileNotFoundError" else None;
     os_path_realpath := fun _ p => p;
     os_path_abspath := fun p => p;
     os_path_expanduser :=
       fun p => if p =? "~" then "/home/u"
                else if p =? "~/.wine" then "/home/u/.wine" else p;
     os_getuid := 1000;
     os_environ_get := lookup env;
     random_randint := fun i => N.of_nat i;
     shlex_join := Py.join " ";
     subprocess_call := fun _ => Some 0%Z;
     get_unix_socket := fun n => ("/tmp/.X11-unix/X" ++ Py.str_of_N n)%string;
     detect_and_require_nested_x11 := X11_XEPHYR;
     find_used := 0;
     find_unused := fun minimum => minimum;
     x11_context_enter :=
       fun _ n w => (None, ("/tmp/.X11-unix/X" ++ Py.str_of_N n)%string :: w);
     x11_context_exit := fun _ _ w => (None, w) |}.

Definition start (env : list (string * string)) (exist : list string) : State (host env) :=
  mkState (host env) exist [].


(** The directories of the baseline that a usual host has. *)
Definition usual : list string :=
  ["/bin"; "/dev/dri"; "/etc"; "/lib"; "/lib64"; "/sys"; "/usr"].

(** [sandwine] with [--dotwine], [--pass], [--configure] and [--no-wine]
    as given, the display as given, and no program. *)
Definition config (mode : X11Mode) (number : option N) (dw : option string)
           (binds : list string) (cfg wine : bool) : Config :=
  {| argv_0 := None; argv_1_plus := []; x11 := mode;
     x11_display_number := number; network := false; pulseaudio := false;
     dotwine := dw; extra_binds := binds; configure := cfg;
     with_pty := true; with_wine := wine; second_try := false |}.

(** [sandwine] without any option. *)
Definition config0 : Config := config X11_NONE None None [] false true.

End Sample.

(** A host on which the capability probe finds no binary: the file system is
    empty and every [subprocess.call] raises [FileNotFoundError]. *)
Definition host_without_bwrap : Host :=
  {| World := list string;
     os_path_exists := fun w p => existsb (String.eqb p) w;
     os_makedirs := fun p w => p :: w;
     os_makedirs_error := fun _ _ => None;
     os_path_realpath := fun _ p => p;
     os_path_abspath := fun p => p;
     os_path_expanduser := fun p => p;
     os_getuid := 1000;
     os_environ_get := fun _ => None;
     random_randint := fun _ => 0%N;
     shlex_join := Py.join " ";
     subprocess_call := fun _ => None;
     get_unix_socket := fun n => Py.str_of_N n;
     detect_and_require_nested_x11 := X11_XEPHYR;
     find_used := 0;
     find_unused := fun minimum => minimum;
     x11_context_enter := fun _ _ w => (None, w);
     x11_context_exit := fun _ _ w => (None, w) |}.

(** ** Evaluation on small inputs *)

Example parse_ro : parse_path_colon_access "/tmp/x:ro" = Ok ("/tmp/x", READ_ONLY).
Proof. reflexivity. Qed.

Example parse_bad : parse_path_colon_access "/tmp/x:rx" = Raise (ValueError "/tmp/x:rx").
Proof. reflexivity. Qed.

Example parse_empty_path : parse_path_colon_access ":rw" = Ok ("", READ_WRITE).
Proof. reflexivity. Qed.

Example sorted_keeps_ties :
  Py.sorted fst [("b", 1); ("a", 2); ("b", 3); ("a", 4)]
  = [("a", 2); ("a", 4); ("b", 1); ("b", 3)].
Proof. reflexivity. Qed.

Example single_trailing_sep_ex :
  single_trailing_sep "/usr//" = "/usr/" /\ single_trailing_sep "/" = "/"
  /\ single_trailing_sep "" = "/".
Proof. repeat split. Qed.

Example split_ex :
  Py.split ":" "/usr/bin::/bin:" = ["/usr/bin"; ""; "/bin"; ""] /\ Py.split ":" "" = [""].
Proof. repeat split. Qed.

Example str_of_N_ex :
  Py.str_of_N 0 = "0" /\ Py.str_of_N 1000 = "1000" /\ Py.hex_tail 0 = "0"
  /\ Py.hex_tail 11 = "b".
Proof. repeat split. Qed.

Example exit_status_ex :
  exit_status (@Raise unit (SystemExit 127)) = 127%Z
  /\ exit_status (@Raise unit (SystemExit (-9))) = 247%Z
  /\ exit_status (@Raise unit (SystemExit 256)) = 0%Z
  /\ exit_status (@Raise unit (OSError "PermissionError")) = 1%Z.
Proof. repeat split. Qed.

Example makedirs_empty_path :
  fst (makedirs (Sample.host []) "" (Sample.start [] []))
  = Raise (OSError "FileNotFoundError").
Proof. reflexivity. Qed.

Example main_with_display :
  let env := [("PATH", "/usr/bin")] in
  let cfg := Sample.config X11_XEPHYR None None [] false true in
  let run := main (Sample.host env) cfg (Sample.start env Sample.usual) in
  fst run = Raise (SystemExit 0)
  /\ world _ (snd run) = "/tmp/.X11-unix/X0" :: Sample.usual
  /\ flat_map (fun ev => match ev with
                         | EvCall argv => [hd "" argv]
                         | EvX11Enter _ _ => ["enter"]
                         | EvX11Exit _ _ => ["exit"]
                         | _ => []
                         end)
              (trace _ (snd run))
     = ["bwrap"; "enter"; "bwrap"; "exit"].
Proof. vm_compute. repeat split. Qed.

(** ** Strings *)

Section StringFacts.

Variable c : ascii.

Lemma contains_append (p q : string) :
  Py.contains c (p ++ q) = Py.contains c p || Py.contains c q.
Proof.
  induction p as [|a p IH]; simpl; [reflexivity|].
  now rewrite IH, orb_assoc.
Qed.

Lemma rcut_none (s : string) : Py.rcut c s = None <-> Py.contains c s = false.
Proof.
  induction s as [|a s IH]; simpl; [tauto|].
  destruct (Py.rcut c s) as [[p q]|].
  - split; [discriminate|].
    intros H. apply orb_false_elim in H. destruct H as [_ H].
    apply IH in H. discriminate.
  - destruct (Ascii.eqb a c); simpl.
    + split; discriminate.
    + split; intros _; [now apply IH | reflexivity].
Qed.

(** The cut is at the last occurrence: nothing after it contains [c]. *)
Lemma rcut_some (s p q : string) :
  Py.rcut c s = Some (p, q) <-> s = (p ++ String c q)%string /\ Py.contains c q = false.
Proof.
  revert p. induction s as [|a s IH]; intros p; simpl.
  - split; [discriminate|]. intros [H _]. destruct p; discriminate.
  - destruct (Py.rcut c s) as [[p' q']|] eqn:E.
    + split.
      * intros H. injection H as <- <-.
        destruct (proj1 (IH p') eq_refl) as [-> Hq]. now split.
      * intros [H Hq]. destruct p as [|b p]; simpl in H.
        -- injection H as Ha Hs. subst s.
           assert (Py.rcut c q = None) by now apply rcut_none.
           congruence.
        -- injection H as Ha Hs. subst b.
           assert (Some (p', q') = Some (p, q)) as X by (apply IH; now split).
           now injection X as -> ->.
    + assert (Py.contains c s = false) as Hc by now apply rcut_none.
      destruct (Ascii.eqb_spec a c) as [Hac|Hac].
      * split.
        -- intros H. injection H as <- <-. subst a. now split.
        -- intros [H Hq]. destruct p as [|b p]; simpl in H.
           ++ injection H as Ha Hs. now subst s.
           ++ injection H as Ha Hs. subst s.
              rewrite contains_append in Hc. simpl in Hc.
              rewrite Ascii.eqb_refl in Hc. simpl in Hc.
              now rewrite orb_true_r in Hc.
      * split; [discriminate|].
        intros [H Hq]. destruct p as [|b p]; simpl in H.
        -- injection H as Ha Hs. now contradiction Hac.
        -- injection H as Ha Hs. subst s.
           rewrite contains_append in Hc. simpl in Hc.
           rewrite Ascii.eqb_refl in Hc. simpl in Hc.
           now rewrite orb_true_r in Hc.
Qed.

Lemma split_no_sep (s : string) : Py.contains c s = false -> Py.split c s = [s].
Proof.
  induction s as [|a s IH]; simpl; [reflexivity|].
  intros H. apply orb_false_elim in H. destruct H as [Ha Hs].
  rewrite Ha, (IH Hs). reflexivity.
Qed.

Lemma split_append (p q : string) :
  Py.contains c p = false ->
  Py.split c (p ++ String c q) = p :: Py.split c q.
Proof.
  induction p as [|a p IH]; simpl.
  - intros _. now rewrite Ascii.eqb_refl.
  - intros H. apply orb_false_elim in H. destruct H as [Ha Hp].
    rewrite Ha, (IH Hp). reflexivity.
Qed.

End StringFacts.

(** ** [parse_path_colon_access] *)

Lemma parse_cut (p q : string) :
  Py.contains ":" q = false ->
  parse_path_colon_access (p ++ ":" ++ q) =
    if q =? "ro" then Ok (p, READ_ONLY)
    else if q =? "rw" then Ok (p, READ_WRITE)
    else Raise (ValueError (p ++ ":" ++ q)).
Proof.
  intros Hq. unfold parse_path_colon_access, Py.rsplit1.
  rewrite contains_append. simpl. rewrite orb_true_r. simpl.
  now rewrite (proj2 (rcut_some ":" (p ++ String ":" q) p q) (conj eq_refl Hq)).
Qed.

Lemma parse_no_colon (s : string) :
  Py.contains ":" s = false -> parse_path_colon_access s = Raise (ValueError s).
Proof. intros H. unfold parse_path_colon_access. now rewrite H. Qed.

(** Every input without a colon is rejected; every other input is cut at its
    last colon. *)
Lemma parse_inv (s : string) :
  Py.contains ":" s = false \/
  exists p q, s = (p ++ ":" ++ q)%string /\ Py.contains ":" q = false.
Proof.
  destruct (Py.rcut ":" s) as [[p q]|] eqn:E.
  - right. exists p, q. now apply rcut_some.
  - left. now apply rcut_none.
Qed.

Lemma parse_raise_inv (s : string) (e : Exception) :
  parse_path_colon_access s = Raise e -> e = ValueError s.
Proof.
  unfold parse_path_colon_access.
  destruct (negb (Py.contains ":" s)); [congruence|].
  destruct (Py.rsplit1 ":" s) as [|p [|q [|]]]; try congruence.
  destruct (q =? "ro"); [discriminate|].
  destruct (q =? "rw"); [discriminate|congruence].
Qed.

(** ** The state and exception monad *)

Section Monad.

Variable h : Host.

Lemma executor_calls_app (t u : list Event) :
  executor_calls (t ++ u) = executor_calls t ++ executor_calls u.
Proof. unfold executor_calls. now rewrite flat_map_app. Qed.

Lemma quiet_ret {A : Type} (a : A) : quiet (@ret h A a).
Proof. now intros s. Qed.

Lemma quiet_raise {A : Type} (e : Exception) : quiet (@raise h A e).
Proof. now intros s. Qed.

Lemma quiet_lift {A : Type} (r : result A) : quiet (@lift h A r).
Proof. now intros s. Qed.

Lemma quiet_path_exists (p : string) : quiet (path_exists h p).
Proof.
  intros s. unfold path_exists. simpl.
  rewrite executor_calls_app. simpl. now rewrite app_nil_r.
Qed.

Lemma quiet_makedirs (p : string) : quiet (makedirs h p).
Proof.
  intros s. unfold makedirs.
  destruct (os_makedirs_error h p (world h s)); simpl;
    rewrite executor_calls_app; simpl; now rewrite app_nil_r.
Qed.

Lemma quiet_realpath_all (l : list string) : quiet (realpath_all h l).
Proof. now intros s. Qed.

Lemma quiet_bind {A B : Type} (m : M h A) (f : A -> M h B) :
  quiet m -> (forall a, quiet (f a)) -> quiet (bind m f).
Proof.
  intros Hm Hf s. unfold bind. specialize (Hm s).
  destruct (m s) as [[a|e] s1]; simpl in *.
  - now rewrite Hf.
  - exact Hm.
Qed.

End Monad.

Create HintDb quiet.

#[local] Hint Resolve quiet_ret quiet_raise quiet_lift quiet_path_exists
  quiet_makedirs quiet_realpath_all : quiet.

Ltac quiet_step :=
  first
    [ apply quiet_bind; [|intros ?]
    | solve [auto with quiet]
    | match goal with
      | |- quiet (if ?b then _ else _) => destruct b
      | |- quiet (match ?x with _ => _ end) => destruct x
      end ].

Section BuilderFacts.

Variable h : Host.

Lemma quiet_build_plan (config : Config) : quiet (build_plan h config).
Proof. unfold build_plan. repeat quiet_step. Qed.

Lemma quiet_render_mount_tasks config sock tasks :
  forall argv, quiet (render_mount_tasks h config sock tasks argv).
Proof.
  induction tasks as [|t tasks IH]; intros argv; simpl.
  - auto with quiet.
  - destruct (mode t); auto; repeat quiet_step; auto.
Qed.

Lemma quiet_filter_path tasks : quiet (filter_path h tasks).
Proof. unfold filter_path. repeat quiet_step. Qed.

Lemma quiet_create_bwrap_argv (config : Config) : quiet (create_bwrap_argv h config).
Proof.
  unfold create_bwrap_argv.
  apply quiet_bind; [apply quiet_build_plan|intros plan].
  apply quiet_bind; [apply quiet_render_mount_tasks|intros argv].
  apply quiet_bind; [apply quiet_filter_path|intros path].
  auto with quiet.
Qed.

(** *** [main]: what happens when no argv is assembled *)

Lemma executor_calls_probe (t : list Event) :
  executor_calls (t ++ [EvCall probe]) = executor_calls t.
Proof. rewrite executor_calls_app. simpl. now rewrite app_nil_r. Qed.

(** [main], case by case. *)
Lemma main_unfold (config : Config) (s : State h) :
  main h config s =
    match subprocess_call h probe with
    | None => (Raise (FileNotFoundError "bwrap"), logged s (EvCall probe))
    | Some rc =>
        if (rc =? 0)%Z then
          match create_bwrap_argv h (resolve_x11 h config) (logged s (EvCall probe)) with
          | (Raise e, s2) => (Raise e, s2)
          | (Ok argv_builder, s2) =>
              match with_context h (x11context config (resolve_x11 h config))
                      (call_executor h (Argv.iter_flat argv_builder)) s2 with
              | (Ok exit_code, s3) => (Raise (SystemExit exit_code), s3)
              | (Raise e, s3) => (Raise e, s3)
              end
          end
        else (Raise (SystemExit 1), logged s (EvCall probe))
    end.
Proof.
  unfold main, bind at 1, require_recent_bubblewrap, bind at 1, call, logged.
  destruct (subprocess_call h probe) as [rc|]; [|reflexivity].
  destruct (rc =? 0)%Z; [|reflexivity].
  unfold bind, ret, raise.
  destruct (create_bwrap_argv _ _ _) as [[ab|e] s2]; [|reflexivity].
  now destruct (with_context _ _ _ _) as [[code|e] s3].
Qed.



(** When [create_bwrap_argv] raises, whatever the state it starts in,
    [main] ends with the exit status of an exception and the executor is
    not called. *)
Lemma main_without_argv (config : Config) (s : State h) :
  (forall s1, exists e s2,
      create_bwrap_argv h (resolve_x11 h config) s1 = (Raise e, s2)
      /\ exit_status (@Raise unit e) = 1%Z) ->
  exit_status (fst (main h config s)) = 1%Z
  /\ executor_calls (trace h (snd (main h config s))) = executor_calls (trace h s).
Proof.
  intros Hraise. rewrite main_unfold.
  destruct (subprocess_call h probe) as [rc|]; simpl;
    [|split; [reflexivity | apply executor_calls_probe]].
  destruct (rc =? 0)%Z; simpl; [|split; [reflexivity | apply executor_calls_probe]].
  destruct (Hraise (logged s (EvCall probe))) as (e & s2 & Hc & He).
  pose proof (quiet_create_bwrap_argv (resolve_x11 h config) (logged s (EvCall probe))) as Hq.
  rewrite Hc in *. simpl in *.
  split; [exact He|].
  rewrite Hq. apply executor_calls_probe.
Qed.

(** *** Malformed tokens *)

Lemma add_extra_binds_malformed (binds : list string) :
  (exists b, In b binds /\ malformed b = true) ->
  forall tasks, exists b, add_extra_binds h binds tasks = Raise (ValueError b).
Proof.
  induction binds as [|b binds IH]; intros (b' & Hin & Hb') tasks; [easy|].
  simpl. destruct (parse_path_colon_access b) as [[mt ma]|e] eqn:P.
  - destruct Hin as [->|Hin].
    + unfold malformed in Hb'. rewrite P in Hb'. discriminate.
    + apply IH. now exists b'.
  - exists b. now rewrite (parse_raise_inv _ _ P).
Qed.

Lemma build_plan_malformed (config : Config) :
  (exists dw, dotwine config = Some dw /\ malformed dw = true)
  \/ (exists b, In b (extra_binds config) /\ malformed b = true) ->
  forall s, exists e s',
    build_plan h config s = (Raise e, s') /\ exit_status (@Raise unit e) = 1%Z.
Proof.
  intros Hbad s.
  assert (forall tasks,
             (exists dw, dotwine config = Some dw /\ malformed dw = true)
             \/ exists b, add_extra_binds h (extra_binds config) tasks
                          = Raise (ValueError b)) as Hx.
  { intros tasks. destruct Hbad as [Hdw|Hb]; [now left|right].
    now apply add_extra_binds_malformed. }
  clear Hbad.
  unfold build_plan, bind, ret, raise, lift, path_exists, makedirs, logged.
  destruct (x11_enabled (x11 config));
    [destruct (x11_display_number config) as [n|]|]; simpl; eauto.
  all: destruct (dotwine config) as [dw|] eqn:Hdw;
    [destruct (parse_path_colon_access dw) as [[src acc]|e] eqn:P;
     [destruct (os_path_exists h (world h s) src)|]|]; simpl.
  all: try (rewrite (parse_raise_inv _ _ P); eauto).
  all: try (destruct (os_makedirs_error h _ _); simpl; [now eauto|]).
  all: match goal with
       | |- context [add_extra_binds h _ ?t] =>
           destruct (Hx t) as [(dw' & Hdw' & Hm)|[b ->]]; [|eauto]
       end.
  all: try discriminate.
  all: injection Hdw' as <-; unfold malformed in Hm; rewrite P in Hm; discriminate.
Qed.

Lemma resolve_x11_tokens (config : Config) :
  dotwine (resolve_x11 h config) = dotwine config
  /\ extra_binds (resolve_x11 h config) = extra_binds config.
Proof. unfold resolve_x11. now destruct (x11_enabled (x11 config)). Qed.

End BuilderFacts.

(** ** The [PATH:{ro,rw}] tokens *)

(** C7. A token that ends in [:ro] parses to its path and read-only access, a
    token that ends in [:rw] to its path and read-write access; a token is
    rejected, with a [ValueError], exactly when it has no colon or when what
    follows its last colon is neither [ro] nor [rw]; and a rejected token in
    [--dotwine] or [--pass] ends [main] with exit status 1, before the
    executor is called. *)
Theorem parse_path_colon_access_spec :
  (forall p, parse_path_colon_access (p ++ ":ro") = Ok (p, READ_ONLY))
  /\ (forall p, parse_path_colon_access (p ++ ":rw") = Ok (p, READ_WRITE))
  /\ (forall s, malformed s = true <->
                (Py.contains ":" s = false
                 \/ exists p q, s = (p ++ ":" ++ q)%string /\ Py.contains ":" q = false
                                /\ q <> "ro" /\ q <> "rw"))
  /\ (forall s, malformed s = true -> parse_path_colon_access s = Raise (ValueError s))
  /\ (forall (h : Host) (config : Config) (s : State h),
         (exists dw, dotwine config = Some dw /\ malformed dw = true)
         \/ (exists b, In b (extra_binds config) /\ malformed b = true) ->
         exit_status (fst (main h config s)) = 1%Z
         /\ executor_calls (trace h (snd (main h config s))) = executor_calls (trace h s)).
Proof.
  split; [|split; [|split; [|split]]].
  - intros p. exact (parse_cut p "ro" eq_refl).
  - intros p. exact (parse_cut p "rw" eq_refl).
  - intros s. unfold malformed. split.
    + destruct (parse_inv s) as [Hc|(p & q & -> & Hq)]; [now left|].
      rewrite (parse_cut p q Hq).
      destruct (String.eqb_spec q "ro"); [discriminate|].
      destruct (String.eqb_spec q "rw"); [discriminate|].
      intros _. right. now exists p, q.
    + intros [Hc|(p & q & -> & Hq & Hro & Hrw)].
      * now rewrite (parse_no_colon s Hc).
      * rewrite (parse_cut p q Hq).
        apply String.eqb_neq in Hro, Hrw. now rewrite Hro, Hrw.
  - intros s. unfold malformed.
    destruct (parse_path_colon_access s) as [x|e] eqn:P; [discriminate|].
    intros _. now rewrite (parse_raise_inv s e P).
  - intros h config s Hbad. apply main_without_argv. intros s1.
    destruct (resolve_x11_tokens h config) as [Hd Hb].
    destruct (build_plan_malformed h (resolve_x11 h config)
                ltac:(rewrite Hd, Hb; exact Hbad) s1) as (e & s2 & Hp & He).
    exists e, s2. unfold create_bwrap_argv, bind. now rewrite Hp.
Qed.

(** C8. The token is cut at its last colon: when what follows the last colon
    is [ro] or [rw], parsing succeeds and the path is everything before that
    colon, colons included. *)
Theorem parse_path_colon_access_last_colon (s p q : string) :
  s = (p ++ ":" ++ q)%string ->
  Py.contains ":" q = false ->
  q = "ro" \/ q = "rw" ->
  parse_path_colon_access s = Ok (p, if q =? "ro" then READ_ONLY else READ_WRITE).
Proof.
  intros -> Hq Hmode. rewrite (parse_cut p q Hq).
  destruct Hmode as [->| ->]; reflexivity.
Qed.

(** ** The order of strings *)

Lemma ascii_compare_spec (a b : ascii) :
  CompareSpec (a = b) (N_of_ascii a < N_of_ascii b)%N (N_of_ascii b < N_of_ascii a)%N
              (Ascii.compare a b).
Proof.
  unfold Ascii.compare.
  destruct (N.compare_spec (N_of_ascii a) (N_of_ascii b)) as [H|H|H];
    constructor; trivial.
  apply (f_equal ascii_of_N) in H. now rewrite !ascii_N_embedding in H.
Qed.

Lemma string_leb_refl (s : string) : String.leb s s = true.
Proof.
  unfold String.leb. induction s as [|a s IH]; simpl; [reflexivity|].
  destruct (ascii_compare_spec a a); trivial. lia.
Qed.

Lemma string_leb_trans (s t u : string) :
  String.leb s t = true -> String.leb t u = true -> String.leb s u = true.
Proof.
  unfold String.leb. revert t u.
  induction s as [|a s IH]; intros [|b t] [|c u]; simpl; trivial; try discriminate.
  destruct (ascii_compare_spec a b) as [Hab|Hab|Hab];
    destruct (ascii_compare_spec b c) as [Hbc|Hbc|Hbc];
    destruct (ascii_compare_spec a c) as [Hac|Hac|Hac];
    subst; trivial; try discriminate; try lia.
  apply IH.
Qed.

Lemma string_ltb_leb (s t : string) : String.ltb s t = negb (String.leb t s).
Proof.
  unfold String.ltb, String.leb. rewrite (String.compare_antisym s t).
  now destruct (String.compare t s).
Qed.

Lemma string_ltb_iff (s t : string) :
  String.ltb s t = true <-> String.leb s t = true /\ s <> t.
Proof.
  rewrite string_ltb_leb. split.
  - intros H. apply negb_true_iff in H. split.
    + destruct (String.leb_total s t) as [Hl|Hl]; [exact Hl | congruence].
    + intros ->. now rewrite string_leb_refl in H.
  - intros [Hle Hne]. apply negb_true_iff.
    destruct (String.leb t s) eqn:Hts; [|reflexivity].
    contradiction Hne. now apply String.leb_antisym.
Qed.

(** ** [sorted] *)

Section Sorted.

Context {A : Type} (key : A -> string).

#[local] Abbreviation key_le := (key_le key).

Lemma insert_by_Permutation (x : A) (l : list A) :
  Permutation (Py.insert_by key x l) (x :: l).
Proof.
  induction l as [|y l IH]; simpl; [reflexivity|].
  destruct (String.leb (key x) (key y)); [reflexivity|].
  rewrite IH. apply perm_swap.
Qed.

Lemma sorted_Permutation (l : list A) : Permutation (Py.sorted key l) l.
Proof.
  induction l as [|x l IH]; simpl; [reflexivity|].
  rewrite insert_by_Permutation. now constructor.
Qed.

Lemma insert_by_StronglySorted (x : A) (l : list A) :
  StronglySorted key_le l -> StronglySorted key_le (Py.insert_by key x l).
Proof.
  induction 1 as [|y l Hs IH Hy]; simpl.
  - repeat constructor.
  - destruct (String.leb (key x) (key y)) eqn:Hxy.
    + constructor; [now constructor|].
      constructor; [exact Hxy|].
      eapply Forall_impl; [|exact Hy].
      intros z Hz. unfold key_le in *. eapply string_leb_trans; eassumption.
    + constructor; [exact IH|].
      eapply Permutation_Forall; [symmetry; apply insert_by_Permutation|].
      constructor; [|exact Hy].
      unfold key_le. destruct (String.leb_total (key x) (key y)); congruence.
Qed.

Lemma sorted_StronglySorted (l : list A) : StronglySorted key_le (Py.sorted key l).
Proof.
  induction l as [|x l IH]; simpl; [constructor|].
  now apply insert_by_StronglySorted.
Qed.

(** Stability: the elements with a given key keep their order. *)
Lemma insert_by_filter (k : string) (x : A) (l : list A) :
  filter (fun y => key y =? k) (Py.insert_by key x l)
  = filter (fun y => key y =? k) (x :: l).
Proof.
  induction l as [|y l IH]; [reflexivity|].
  cbn [Py.insert_by]. destruct (String.leb (key x) (key y)) eqn:Hxy; [reflexivity|].
  cbn [filter] in *. rewrite IH.
  destruct (String.eqb_spec (key x) k) as [Hx|Hx]; [|reflexivity].
  destruct (String.eqb_spec (key y) k) as [Hy|Hy]; [|reflexivity].
  rewrite Hx, Hy, string_leb_refl in Hxy. discriminate.
Qed.

Lemma sorted_filter (k : string) (l : list A) :
  filter (fun y => key y =? k) (Py.sorted key l) = filter (fun y => key y =? k) l.
Proof.
  induction l as [|x l IH]; [reflexivity|].
  cbn [Py.sorted fold_right]. fold (Py.sorted key l).
  rewrite insert_by_filter. cbn [filter]. now rewrite IH.
Qed.

Lemma insert_by_map (x : A) (l : list A) :
  map key (Py.insert_by key x l) = Py.insert_by (fun k => k) (key x) (map key l).
Proof.
  induction l as [|y l IH]; simpl; [reflexivity|].
  destruct (String.leb (key x) (key y)); simpl; [reflexivity | now rewrite IH].
Qed.

Lemma sorted_map (l : list A) :
  map key (Py.sorted key l) = Py.sorted (fun k => k) (map key l).
Proof.
  induction l as [|x l IH]; simpl; [reflexivity|].
  fold (Py.sorted key l). now rewrite insert_by_map, IH.
Qed.

End Sorted.

(** Two ascending lists of strings with the same elements are equal. *)
Lemma ascending_unique (l1 l2 : list string) :
  StronglySorted (key_le (fun k => k)) l1 ->
  StronglySorted (key_le (fun k => k)) l2 ->
  Permutation l1 l2 -> l1 = l2.
Proof.
  intros H1. revert l2. induction H1 as [|x l1 Hs1 IH Hx]; intros l2 H2 Hp.
  - apply Permutation_nil in Hp. now subst.
  - destruct H2 as [|y l2 Hs2 Hy].
    + apply Permutation_sym, Permutation_nil in Hp. discriminate.
    + assert (x = y) as ->.
      { assert (In x (y :: l2)) as Hxin
          by (eapply Permutation_in; [exact Hp | now left]).
        assert (In y (x :: l1)) as Hyin
          by (eapply Permutation_in; [symmetry; exact Hp | now left]).
        destruct Hxin as [->|Hxin]; [reflexivity|].
        destruct Hyin as [->|Hyin]; [reflexivity|].
        rewrite Forall_forall in Hx, Hy.
        apply String.leb_antisym; [apply (Hx _ Hyin) | apply (Hy _ Hxin)]. }
      f_equal. apply IH; [exact Hs2|].
      eapply Permutation_cons_inv; exact Hp.
Qed.

(** The keys come out in an order that does not depend on the order of the
    input. *)
Lemma sorted_keys_Permutation {A : Type} (key : A -> string) (l l' : list A) :
  Permutation l l' -> map key (Py.sorted key l) = map key (Py.sorted key l').
Proof.
  intros Hp. rewrite !sorted_map.
  apply ascending_unique; try apply sorted_StronglySorted.
  rewrite !sorted_Permutation. now apply Permutation_map.
Qed.

(** ** The mount stack *)

Section MountStack.

Variable h : Host.
Variable config : Config.
Variable sock : option string.

#[local] Abbreviation render := (render_mount_tasks h config sock).
#[local] Abbreviation missing_in s := (missing h (world h s) config sock).

Lemma add_group (argv : ArgvBuilder) (a : string) (args : list string) :
  Argv.add argv (a :: args) = mkArgvBuilder (_groups argv ++ [a :: args]).
Proof. reflexivity. Qed.

Lemma add_mount_group (argv : ArgvBuilder) (t : MountTask) :
  Argv.add argv (mount_group t) = mkArgvBuilder (_groups argv ++ [mount_group t]).
Proof. unfold mount_group. now destruct (mode t). Qed.

(** One step of the loop on a task that is not a bind: its group is added,
    nothing is probed. *)
Lemma render_step_other (t : MountTask) (rest : list MountTask) argv :
  is_bind (mode t) = false ->
  render (t :: rest) argv = render rest (Argv.add argv (mount_group t)).
Proof. unfold mount_group. simpl. now destruct (mode t). Qed.

(** One step of the loop on a bind. *)
Lemma render_step_bind (t : MountTask) (rest : list MountTask) argv (s : State h) :
  is_bind (mode t) = true ->
  render (t :: rest) argv s =
    let s1 := logged s (EvExists (source_or_target t)) in
    if missing_in s t then
      if required t then (Raise (SystemExit 1), s1) else render rest argv s1
    else render rest (Argv.add argv (mount_group t)) s1.
Proof.
  unfold mount_group, missing. simpl.
  destruct (mode t); try discriminate; intros _; simpl;
    unfold bind, path_exists, raise; simpl;
    now destruct (negb (os_path_exists h (world h s) (source_or_target t))
                  && negb (is_display_socket config sock t)), (required t).
Qed.

(** When no task aborts, the loop adds the groups of the tasks that are not
    missing, in order, and probes the sources of the binds, in order. *)
Lemma render_ok (tasks : list MountTask) :
  forall argv (s : State h),
    (forall t, In t tasks -> missing_in s t = true -> required t = false) ->
    render tasks argv s =
      (Ok (mkArgvBuilder
             (_groups argv
              ++ map mount_group (filter (fun t => negb (missing_in s t)) tasks))),
       mkState h (world h s) (trace h s ++ probes tasks)).
Proof.
  induction tasks as [|t tasks IH]; intros argv s Hreq.
  - simpl. unfold ret, probes. simpl. rewrite !app_nil_r. now destruct argv, s.
  - assert (forall t', In t' tasks -> missing_in s t' = true -> required t' = false)
      as Hreq' by (intros t' Hin; apply Hreq; now right).
    destruct (is_bind (mode t)) eqn:Hb.
    + rewrite render_step_bind by exact Hb. cbn zeta.
      unfold probes. cbn [filter map]. rewrite Hb. cbn [map].
      destruct (missing_in s t) eqn:Hm.
      * rewrite (Hreq t (or_introl eq_refl) Hm).
        rewrite IH by exact Hreq'. simpl. unfold probes.
        now rewrite <- app_assoc.
      * rewrite add_mount_group, IH by exact Hreq'. simpl. unfold probes.
        now rewrite <- !app_assoc.
    + rewrite render_step_other by exact Hb.
      rewrite IH by exact Hreq'.
      unfold probes. cbn [filter map]. rewrite Hb.
      unfold missing at 2. rewrite Hb, add_mount_group. simpl.
      now rewrite <- !app_assoc.
Qed.

Lemma render_world (tasks : list MountTask) :
  forall argv (s : State h), world h (snd (render tasks argv s)) = world h s.
Proof.
  induction tasks as [|t tasks IH]; intros argv s; [reflexivity|].
  destruct (is_bind (mode t)) eqn:Hb.
  - rewrite render_step_bind by exact Hb. cbn zeta.
    destruct (missing_in s t); [destruct (required t)|]; try rewrite IH; reflexivity.
  - rewrite render_step_other by exact Hb. apply IH.
Qed.

(** The result of the loop depends on the file system only, not on what
    was logged before. *)
Lemma render_result (tasks : list MountTask) :
  forall argv (s s' : State h),
    world h s = world h s' ->
    fst (render tasks argv s) = fst (render tasks argv s').
Proof.
  induction tasks as [|t tasks IH]; intros argv s s' Hw; [reflexivity|].
  destruct (is_bind (mode t)) eqn:Hb.
  - rewrite !render_step_bind by exact Hb. cbn zeta. rewrite <- Hw.
    destruct (missing_in s t); [destruct (required t)|]; trivial;
      apply IH; exact Hw.
  - rewrite !render_step_other by exact Hb. now apply IH.
Qed.

Lemma render_app (l1 l2 : list MountTask) :
  forall argv (s : State h),
    render (l1 ++ l2) argv s =
      match render l1 argv s with
      | (Ok argv1, s1) => render l2 argv1 s1
      | (Raise e, s1) => (Raise e, s1)
      end.
Proof.
  induction l1 as [|t l1 IH]; intros argv s; [reflexivity|].
  rewrite <- app_comm_cons.
  destruct (is_bind (mode t)) eqn:Hb.
  - rewrite !render_step_bind by exact Hb. cbn zeta.
    destruct (missing_in s t); [destruct (required t)|]; trivial; apply IH.
  - rewrite !render_step_other by exact Hb. apply IH.
Qed.

(** The loop raises nothing but [SystemExit(1)], and only at a bind whose
    source is missing and which is required. *)
Lemma render_raise (tasks : list MountTask) :
  forall argv (s : State h) e s',
    render tasks argv s = (Raise e, s') ->
    e = SystemExit 1
    /\ exists t, In t tasks /\ missing_in s t = true /\ required t = true.
Proof.
  induction tasks as [|t tasks IH]; intros argv s e s' H; [discriminate|].
  destruct (is_bind (mode t)) eqn:Hb.
  - rewrite render_step_bind in H by exact Hb. cbn zeta in H.
    destruct (missing_in s t) eqn:Hm; [destruct (required t) eqn:Hr|].
    + injection H as <- _. split; [reflexivity|]. exists t. now split; [left|].
    + apply IH in H. destruct H as [He (t' & Hin & Hm' & Hr')].
      split; [exact He|]. exists t'. now split; [right|].
    + apply IH in H. destruct H as [He (t' & Hin & Hm' & Hr')].
      split; [exact He|]. exists t'. now split; [right|].
  - rewrite render_step_other in H by exact Hb.
    apply IH in H. destruct H as [He (t' & Hin & Hm' & Hr')].
    split; [exact He|]. exists t'. now split; [right|].
Qed.

(** Conversely, when the loop returns, no required bind was missing. *)
Lemma render_ok_inv (tasks : list MountTask) :
  forall argv (s : State h) argv' s',
    render tasks argv s = (Ok argv', s') ->
    forall t, In t tasks -> missing_in s t = true -> required t = false.
Proof.
  induction tasks as [|t tasks IH]; intros argv s argv' s' H t' Hin Hm; [easy|].
  destruct (is_bind (mode t)) eqn:Hb.
  - rewrite render_step_bind in H by exact Hb. cbn zeta in H.
    destruct Hin as [->|Hin].
    + rewrite Hm in H. now destruct (required t').
    + destruct (missing_in s t); [destruct (required t)|]; try discriminate;
        eapply (IH _ _ _ _ H); eassumption.
  - rewrite render_step_other in H by exact Hb.
    destruct Hin as [->|Hin].
    + unfold missing in Hm. rewrite Hb in Hm. discriminate.
    + eapply (IH _ _ _ _ H); eassumption.
Qed.

End MountStack.

(** ** The shape of the assembled argv *)

Section Assembly.

Variable h : Host.

Lemma render_env_groups (items : list (string * option string)) :
  forall argv, _groups (render_env h items argv) = _groups argv ++ flat_map (env_group h) items.
Proof.
  induction items as [|[k v] items IH]; intros argv; simpl.
  - now rewrite app_nil_r.
  - unfold env_group at 1. simpl.
    destruct v as [v|]; [|destruct (os_environ_get h k) as [v|]];
      rewrite IH; simpl; trivial; now rewrite <- app_assoc.
Qed.

Lemma add_command_groups (config : Config) (rw : bool) (argv : ArgvBuilder) :
  _groups (add_command h config rw argv)
  = _groups argv ++ [["--"]] ++ wrappers config rw ++ [inner_command h config].
Proof.
  unfold add_command, wrappers, inner_command.
  destruct (with_wine config), rw, (second_try config), (argv_0 config),
    (with_pty config); simpl; rewrite <- ?app_assoc; reflexivity.
Qed.

(** The steps of a run of [create_bwrap_argv] that returns. *)
Lemma create_bwrap_argv_inv (config : Config) (s s' : State h) (argv : ArgvBuilder) :
  create_bwrap_argv h config s = (Ok argv, s') ->
  exists plan s1 argv1 s2 path,
    build_plan h config s = (Ok plan, s1)
    /\ render_mount_tasks h config (x11_unix_socket plan)
         (Py.sorted target (mount_tasks plan))
         (Argv.add (argv_so_far plan) (unshare_args plan)) s1 = (Ok argv1, s2)
    /\ filter_path h (Py.sorted target (mount_tasks plan)) s2 = (Ok path, s')
    /\ argv = add_command h config (run_winecfg plan)
                (render_env h
                   (Py.sorted fst (dict_set (env_tasks plan) "PATH" (Some path)))
                   (Argv.add argv1 ["--clearenv"])).
Proof.
  unfold create_bwrap_argv, bind at 1.
  destruct (build_plan h config s) as [[plan|e] s1]; [|discriminate].
  unfold bind at 1.
  destruct (render_mount_tasks _ _ _ _ _ _) as [[argv1|e] s2] eqn:Hr; [|discriminate].
  unfold bind at 1.
  destruct (filter_path _ _ _) as [[path|e] s3] eqn:Hp; [|discriminate].
  unfold ret. intros H. injection H as <- <-.
  now exists plan, s1, argv1, s2, path.
Qed.

(** The groups of the argv that [create_bwrap_argv] returns: what precedes
    the mount stack, the mount stack, the environment, the separator, the
    wrappers and the inner command. *)
Lemma create_bwrap_argv_groups (config : Config) (s s' : State h) (argv : ArgvBuilder) :
  create_bwrap_argv h config s = (Ok argv, s') ->
  exists plan s1 path,
    build_plan h config s = (Ok plan, s1)
    /\ fst (filter_path h (Py.sorted target (mount_tasks plan)) s1) = Ok path
    /\ Argv.iter_groups argv =
         _groups (Argv.add (argv_so_far plan) (unshare_args plan))
         ++ map mount_group
              (filter (fun t => negb (missing h (world h s1) config (x11_unix_socket plan) t))
                      (Py.sorted target (mount_tasks plan)))
         ++ [["--clearenv"]]
         ++ flat_map (env_group h)
              (Py.sorted fst (dict_set (env_tasks plan) "PATH" (Some path)))
         ++ [["--"]] ++ wrappers config (run_winecfg plan) ++ [inner_command h config].
Proof.
  intros H. apply create_bwrap_argv_inv in H.
  destruct H as (plan & s1 & argv1 & s2 & path & Hp & Hr & Hf & ->).
  exists plan, s1, path. split; [exact Hp|].
  pose proof (render_ok_inv _ _ _ _ _ _ _ _ Hr) as Hreq.
  rewrite (render_ok _ _ _ _ _ _ Hreq) in Hr. injection Hr as <- <-.
  split.
  - unfold filter_path in *. destruct (os_environ_get h "PATH"); [|discriminate].
    unfold bind, realpath_all, ret in *. simpl in *. now injection Hf as <- _.
  - unfold Argv.iter_groups. rewrite add_command_groups, render_env_groups.
    simpl. now rewrite <- !app_assoc.
Qed.

End Assembly.

(** ** Missing sources *)

(** C3. When the loop over the sorted tasks reaches a bind-type task whose
    source does not exist and which is not the display socket: a required
    task makes the loop raise [SystemExit(1)], and [main] then ends with exit
    status 1 without calling the executor; a task that is not required adds
    no group, the loop goes on with the tasks that follow it, and the result
    is the one of the plan without that task. *)
Theorem missing_source_policy (h : Host) (config : Config) (sock : option string)
    (l1 l2 : list MountTask) (t : MountTask) (argv argv1 : ArgvBuilder) (s s1 : State h) :
  render_mount_tasks h config sock l1 argv s = (Ok argv1, s1) ->
  is_bind (mode t) = true ->
  os_path_exists h (world h s) (source_or_target t) = false ->
  is_display_socket config sock t = false ->
  (required t = true ->
   fst (render_mount_tasks h config sock (l1 ++ t :: l2) argv s) = Raise (SystemExit 1)
   /\ forall (cfg : Config) (s0 : State h) (plan : Plan),
       config = resolve_x11 h cfg ->
       build_plan h config (logged s0 (EvCall probe)) = (Ok plan, s) ->
       sock = x11_unix_socket plan ->
       argv = Argv.add (argv_so_far plan) (unshare_args plan) ->
       Py.sorted target (mount_tasks plan) = l1 ++ t :: l2 ->
       exit_status (fst (main h cfg s0)) = 1%Z
       /\ executor_calls (trace h (snd (main h cfg s0))) = executor_calls (trace h s0))
  /\ (required t = false ->
      render_mount_tasks h config sock (l1 ++ t :: l2) argv s
      = render_mount_tasks h config sock l2 argv1
          (logged s1 (EvExists (source_or_target t)))
      /\ fst (render_mount_tasks h config sock (l1 ++ t :: l2) argv s)
         = fst (render_mount_tasks h config sock (l1 ++ l2) argv s)).
Proof.
  intros Hl1 Hb Hex Hsock.
  assert (world h s1 = world h s) as Hw
    by (rewrite <- (render_world h config sock l1 argv s); now rewrite Hl1).
  assert (missing h (world h s1) config sock t = true) as Hm
    by (unfold missing; now rewrite Hb, Hw, Hex, Hsock).
  split; intros Hr.
  - assert (fst (render_mount_tasks h config sock (l1 ++ t :: l2) argv s)
            = Raise (SystemExit 1)) as Habort.
    { rewrite render_app, Hl1, render_step_bind by exact Hb.
      cbn zeta. now rewrite Hm, Hr. }
    split; [exact Habort|].
    intros cfg s0 plan -> Hplan -> -> Hsorted.
    assert (exists s2, create_bwrap_argv h (resolve_x11 h cfg) (logged s0 (EvCall probe))
                       = (Raise (SystemExit 1), s2)) as [s2 Hc].
    { unfold create_bwrap_argv, bind at 1. rewrite Hplan.
      unfold bind at 1. rewrite Hsorted.
      destruct (render_mount_tasks h _ _ (l1 ++ t :: l2) _ _) as [[a|e] s2]; simpl in Habort; [discriminate|].
      injection Habort as ->. now exists s2. }
    pose proof (quiet_create_bwrap_argv h (resolve_x11 h cfg) (logged s0 (EvCall probe)))
      as Hq.
    rewrite Hc in Hq. simpl in Hq.
    rewrite main_unfold.
    destruct (subprocess_call h probe) as [rc|]; simpl;
      [|split; [reflexivity | apply executor_calls_probe]].
    destruct (rc =? 0)%Z; simpl; [|split; [reflexivity | apply executor_calls_probe]].
    rewrite Hc. simpl. split; [reflexivity|].
    rewrite Hq. apply executor_calls_probe.
  - rewrite !render_app, Hl1, render_step_bind by exact Hb.
    cbn zeta. rewrite Hm, Hr. split; [reflexivity|].
    apply render_result. reflexivity.
Qed.

(** ** Tasks that are not binds *)

Lemma in_sorted {A : Type} (key : A -> string) (x : A) (l : list A) :
  In x l -> In x (Py.sorted key l).
Proof.
  intros H. eapply Permutation_in; [symmetry; apply sorted_Permutation | exact H].
Qed.

(** C9. A task that is not a bind (tmpfs, device tmpfs, proc) is rendered
    by one step of the loop that probes nothing and cannot abort, whatever its
    [required] flag and whatever exists on the host; so in a run that returns,
    the probes are those of the binds, every task that is not a bind has its
    group in the argv, a task without its group is a bind that is not
    required and whose source is missing, and a run that aborts does so at a
    required bind whose source is missing. *)
Theorem non_bind_tasks_always_rendered (h : Host) (config : Config) :
  (forall sock t rest argv,
      is_bind (mode t) = false ->
      render_mount_tasks h config sock (t :: rest) argv
      = render_mount_tasks h config sock rest
          (Argv.add argv
             [match mode t with TMPFS => "--tmpfs" | DEVTMPFS => "--dev" | _ => "--proc" end;
              target t]))
  /\ (forall sock tasks argv s argv' s',
         render_mount_tasks h config sock tasks argv s = (Ok argv', s') ->
         trace h s' = trace h s
                      ++ map (fun t => EvExists (source_or_target t))
                             (filter (fun t => is_bind (mode t)) tasks)
         /\ (forall t, In t tasks -> is_bind (mode t) = false ->
                       In (mount_group t) (_groups argv'))
         /\ (forall t, In t tasks -> ~ In (mount_group t) (_groups argv') ->
                       is_bind (mode t) = true /\ required t = false
                       /\ os_path_exists h (world h s) (source_or_target t) = false))
  /\ (forall sock tasks argv s e s',
         render_mount_tasks h config sock tasks argv s = (Raise e, s') ->
         exists t, In t tasks /\ is_bind (mode t) = true /\ required t = true
                   /\ os_path_exists h (world h s) (source_or_target t) = false)
  /\ (forall s plan s1 argv s',
         build_plan h config s = (Ok plan, s1) ->
         create_bwrap_argv h config s = (Ok argv, s') ->
         forall t, In t (mount_tasks plan) -> is_bind (mode t) = false ->
                   In (mount_group t) (Argv.iter_groups argv)).
Proof.
  split; [|split; [|split]].
  - intros sock t rest argv Hb. rewrite render_step_other by exact Hb.
    unfold mount_group. now destruct (mode t).
  - intros sock tasks argv s argv' s' H.
    pose proof (render_ok_inv _ _ _ _ _ _ _ _ H) as Hreq.
    rewrite (render_ok _ _ _ _ _ _ Hreq) in H. injection H as <- <-.
    split; [reflexivity|]. simpl. split.
    + intros t Hin Hb. apply in_or_app. right. apply in_map, filter_In.
      split; [exact Hin|]. unfold missing. now rewrite Hb.
    + intros t Hin Hout.
      destruct (missing h (world h s) config sock t) eqn:Hm.
      * pose proof (Hreq t Hin Hm) as Hr. unfold missing in Hm.
        apply andb_prop in Hm. destruct Hm as [Hb Hm].
        apply andb_prop in Hm. destruct Hm as [Hex _].
        apply negb_true_iff in Hex. now repeat split.
      * contradiction Hout. apply in_or_app. right. apply in_map, filter_In.
        now rewrite Hm.
  - intros sock tasks argv s e s' H. apply render_raise in H.
    destruct H as [_ (t & Hin & Hm & Hr)]. exists t. unfold missing in Hm.
    apply andb_prop in Hm. destruct Hm as [Hb Hm].
    apply andb_prop in Hm. destruct Hm as [Hex _].
    apply negb_true_iff in Hex. now repeat split.
  - intros s plan s1 argv s' Hplan H t Hin Hb.
    apply create_bwrap_argv_groups in H.
    destruct H as (plan' & s1' & path & Hplan' & _ & ->).
    rewrite Hplan in Hplan'. injection Hplan' as <- <-.
    apply in_or_app. right. apply in_or_app. left.
    apply in_map, filter_In. split; [now apply in_sorted|].
    unfold missing. now rewrite Hb.
Qed.

(** ** The order of the mount stack *)

Lemma last_mount_group (t : MountTask) : last (mount_group t) "" = target t.
Proof. unfold mount_group. now destruct (mode t). Qed.

Lemma filter_map_swap {A B : Type} (f : A -> B) (p : B -> bool) (l : list A) :
  filter p (map f l) = map f (filter (fun x => p (f x)) l).
Proof.
  induction l as [|x l IH]; simpl; [reflexivity|].
  destruct (p (f x)); simpl; now rewrite IH.
Qed.

Lemma filter_filter_swap {A : Type} (p q : A -> bool) (l : list A) :
  filter p (filter q l) = filter q (filter p l).
Proof.
  induction l as [|x l IH]; simpl; [reflexivity|].
  destruct (p x) eqn:Hp, (q x) eqn:Hq; simpl; rewrite ?Hp, ?Hq, IH; reflexivity.
Qed.

(** An element that a filter keeps splits the list where it splits the
    filtered list. *)
Lemma filter_split {A : Type} (p : A -> bool) (l l1 l2 : list A) (x : A) :
  filter p l = l1 ++ x :: l2 ->
  exists a b, l = a ++ x :: b /\ filter p a = l1 /\ filter p b = l2.
Proof.
  revert l1. induction l as [|y l IH]; intros l1 H; simpl in H.
  - destruct l1; discriminate.
  - destruct (p y) eqn:Hy.
    + destruct l1 as [|z l1]; simpl in H; injection H as -> H.
      * exists [], l. simpl. auto.
      * destruct (IH _ H) as (a & b & -> & Ha & Hb).
        exists (z :: a), b. simpl. rewrite Hy, Ha. auto.
    + destruct (IH _ H) as (a & b & -> & Ha & Hb).
      exists (y :: a), b. simpl. rewrite Hy. auto.
Qed.

(** C10, as the code has it. Tasks with the same target are all kept by the
    sort, in the order in which they were inserted into the plan; in the argv
    that [create_bwrap_argv] returns, the groups of the mount stack whose
    target is [k] are the groups of the plan's tasks with target [k], in
    insertion order, each of them rendered unless its source is missing; so
    two tasks with the same target are both rendered only when both pass the
    missing-source check, and then the one inserted first comes before the
    other. *)
Theorem duplicate_targets_keep_insertion_order (h : Host) :
  (forall (tasks : list MountTask) (k : string),
      filter (fun t => target t =? k) (Py.sorted target tasks)
      = filter (fun t => target t =? k) tasks)
  /\ (forall config s plan s1 argv s',
         build_plan h config s = (Ok plan, s1) ->
         create_bwrap_argv h config s = (Ok argv, s') ->
         exists mounts rest,
           Argv.iter_groups argv
           = _groups (Argv.add (argv_so_far plan) (unshare_args plan))
             ++ mounts ++ [["--clearenv"]] ++ rest
           /\ (forall k,
                  filter (fun g => last g "" =? k) mounts
                  = map mount_group
                      (filter (fun t => negb (missing h (world h s1) config
                                                (x11_unix_socket plan) t))
                              (filter (fun t => target t =? k) (mount_tasks plan))))
           /\ (forall a b c t1 t2,
                  mount_tasks plan = a ++ t1 :: b ++ t2 :: c ->
                  target t1 = target t2 ->
                  missing h (world h s1) config (x11_unix_socket plan) t1 = false ->
                  missing h (world h s1) config (x11_unix_socket plan) t2 = false ->
                  exists before between after,
                    mounts = before ++ mount_group t1 :: between
                                    ++ mount_group t2 :: after)).
Proof.
  split.
  - intros tasks k. apply sorted_filter.
  - intros config s plan s1 argv s' Hplan H.
    apply create_bwrap_argv_groups in H.
    destruct H as (plan' & s1' & path & Hplan' & _ & ->).
    rewrite Hplan in Hplan'. injection Hplan' as <- <-.
    eexists. eexists. split; [reflexivity|]. split.
    + intros k. rewrite filter_map_swap. f_equal.
      rewrite (filter_ext _ (fun t => target t =? k))
        by (intros t; now rewrite last_mount_group).
      rewrite filter_filter_swap. f_equal. apply sorted_filter.
    + intros a b c t1 t2 Htasks Ht Hm1 Hm2.
      pose proof (sorted_filter target (target t1) (mount_tasks plan)) as Hs.
      rewrite Htasks in Hs at 2.
      rewrite filter_app in Hs. cbn [filter] in Hs.
      rewrite String.eqb_refl, filter_app in Hs. cbn [filter] in Hs.
      rewrite <- Ht, String.eqb_refl in Hs.
      apply filter_split in Hs. destruct Hs as (a' & r & Hsorted & _ & Hr).
      apply filter_split in Hr. destruct Hr as (b' & c' & -> & _ & _).
      rewrite Hsorted, filter_app. cbn [filter]. rewrite Hm1. cbn [negb].
      rewrite filter_app. cbn [filter]. rewrite Hm2. cbn [negb].
      rewrite map_app. cbn [map]. rewrite map_app. cbn [map].
      eexists. eexists. eexists. reflexivity.
Qed.

Lemma filter_Subseq {A : Type} (p : A -> bool) (l : list A) : Subseq (filter p l) l.
Proof.
  induction l as [|x l IH]; simpl; [constructor|].
  destruct (p x); now constructor.
Qed.

Lemma filter_StronglySorted {A : Type} (R : A -> A -> Prop) (p : A -> bool)
      (l : list A) :
  StronglySorted R l -> StronglySorted R (filter p l).
Proof.
  induction 1 as [|x l Hs IH Hx]; simpl; [constructor|].
  destruct (p x); [|exact IH].
  constructor; [exact IH|].
  rewrite Forall_forall in *. intros y Hy. apply Hx.
  now apply filter_In in Hy.
Qed.

(** C2, as the code has it. The tasks are consumed in ascending order of
    their targets, compared as they are (no separator is added or removed),
    ties allowed; the consumed list is a rearrangement of the plan, the
    sequence of targets does not depend on the insertion order, the groups
    that the loop adds are those of consumed tasks, in that order, and the
    tasks with the same target are consumed in their insertion order. *)
Theorem sorted_mount_tasks_order (tasks : list MountTask) :
  Permutation (Py.sorted target tasks) tasks
  /\ StronglySorted (key_le target) (Py.sorted target tasks)
  /\ (forall tasks', Permutation tasks tasks' ->
                     map target (Py.sorted target tasks)
                     = map target (Py.sorted target tasks'))
  /\ (forall (h : Host) config sock argv (s s' : State h) argv',
         render_mount_tasks h config sock (Py.sorted target tasks) argv s = (Ok argv', s') ->
         exists rendered,
           _groups argv' = _groups argv ++ map mount_group rendered
           /\ Subseq rendered (Py.sorted target tasks)
           /\ StronglySorted (key_le target) rendered)
  /\ (forall k,
         filter (fun t => target t =? k) (Py.sorted target tasks)
         = filter (fun t => target t =? k) tasks).
Proof.
  split; [apply sorted_Permutation|].
  split; [apply sorted_StronglySorted|].
  split; [intros tasks'; apply sorted_keys_Permutation|].
  split; [|intros k; apply sorted_filter].
  intros h config sock argv s s' argv' H.
  pose proof (render_ok_inv _ _ _ _ _ _ _ _ H) as Hreq.
  rewrite (render_ok _ _ _ _ _ _ Hreq) in H. injection H as <- _.
  eexists. split; [reflexivity|]. split.
  - apply filter_Subseq.
  - apply filter_StronglySorted, sorted_StronglySorted.
Qed.

(** ** What [build_plan] leaves behind *)

Section PlanFacts.

Variable h : Host.

Lemma build_plan_inv (config : Config) (s s1 : State h) (plan : Plan) :
  build_plan h config s = (Ok plan, s1) ->
  run_winecfg plan
  = (x11_enabled (x11 config)
     && (configure config || match dotwine config with None => true | Some _ => false end))
    || dotwine_fresh h (world h s) config
  /\ _groups (argv_so_far plan)
     = [["bwrap"]; ["--disable-userns"]; ["--die-with-parent"];
        ["--hostname"; random_hostname h]]
  /\ unshare_args plan
     = ["--unshare-user"; "--unshare-all"]
       ++ (if network config then ["--share-net"] else [])
  /\ NoDup (map fst (env_tasks plan))
  /\ (forall name, In name inherited -> In (name, None) (env_tasks plan))
  /\ ~ In "PATH" (map fst (env_tasks plan))
  /\ world h s1
     = (if dotwine_fresh h (world h s) config
        then match dotwine_source config with
             | Some src => os_makedirs h src (world h s)
             | None => world h s
             end
        else world h s)
  /\ (forall src, dotwine_source config = Some src ->
                  dotwine_fresh h (world h s) config = true ->
                  In (EvMakedirs src) (trace h s1)).
Proof.
  intros H.
  unfold build_plan, bind, ret, raise, lift, path_exists, makedirs, logged in H.
  unfold dotwine_fresh, dotwine_source.
  destruct (x11_enabled (x11 config)) eqn:Hx;
    [destruct (x11_display_number config)|]; simpl in H; try discriminate.
  all: destruct (dotwine config) as [dw|];
    [destruct (parse_path_colon_access dw) as [[src acc]|e];
     [destruct (os_path_exists h (world h s) src) eqn:Hex|]|];
    simpl in H; try discriminate.
  all: try match type of H with
       | context [os_makedirs_error h ?p ?w] =>
           destruct (os_makedirs_error h p w); simpl in H; [discriminate|]
       end.
  all: match type of H with
       | context [add_extra_binds h ?b ?t] => destruct (add_extra_binds h b t)
       end; simpl in H; try discriminate.
  all: injection H as <- <-; simpl.
  all: destruct (pulseaudio config), (network config), (configure config); simpl.
  all: repeat match goal with |- _ /\ _ => split end; try reflexivity.
  all: try (repeat constructor; simpl; intuition discriminate).
  all: try (intros name [<-|[<-|[<-|[<-|[]]]]]; simpl; tauto).
  all: try (intros src0 Heq Ht; try discriminate; injection Heq as <-;
            apply in_or_app; right; now left).
Qed.

(** The environment tasks of the plan. *)
Lemma build_plan_env (config : Config) (s s1 : State h) (plan : Plan) :
  build_plan h config s = (Ok plan, s1) ->
  (x11_enabled (x11 config) = true -> x11_display_number config <> None)
  /\ env_tasks plan
     = map (fun k => (k, None)) inherited
       ++ [("container", Some "sandwine"); ("HOSTNAME", Some (random_hostname h))]
       ++ (if pulseaudio config
           then [("PULSE_SERVER", Some ("unix:" ++ pulseaudio_socket h)%string)]
           else [])
       ++ (if x11_enabled (x11 config)
           then match x11_display_number config with
                | Some n => [("DISPLAY", Some (":" ++ Py.str_of_N n)%string)]
                | None => []
                end
           else []).
Proof.
  intros H.
  unfold build_plan, bind, ret, raise, lift, path_exists, makedirs, logged in H.
  unfold pulseaudio_socket.
  destruct (x11_enabled (x11 config)) eqn:Hx;
    [destruct (x11_display_number config)|]; simpl in H; try discriminate.
  all: destruct (dotwine config) as [dw|];
    [destruct (parse_path_colon_access dw) as [[src acc]|e];
     [destruct (os_path_exists h (world h s) src) eqn:Hex|]|];
    simpl in H; try discriminate.
  all: try match type of H with
       | context [os_makedirs_error h ?p ?w] =>
           destruct (os_makedirs_error h p w); simpl in H; [discriminate|]
       end.
  all: match type of H with
       | context [add_extra_binds h ?b ?t] => destruct (add_extra_binds h b t)
       end; simpl in H; try discriminate.
  all: injection H as <- <-; cbn [env_tasks].
  all: destruct (pulseaudio config); simpl.
  all: split; [discriminate || reflexivity | reflexivity].
Qed.

(** *** Dictionaries *)

Lemma dict_set_new {V : Type} (d : dict V) (k : string) (v : V) :
  ~ In k (map fst d) -> dict_set d k v = d ++ [(k, v)].
Proof.
  induction d as [|[k' v'] d IH]; simpl; [reflexivity|].
  intros Hk. destruct (String.eqb_spec k' k) as [->|Hne].
  - contradiction Hk. now left.
  - rewrite IH; [reflexivity|]. intros Hin. apply Hk. now right.
Qed.

Lemma keys_unique {V : Type} (d : dict V) (k : string) (v v' : V) :
  NoDup (map fst d) -> In (k, v) d -> In (k, v') d -> v = v'.
Proof.
  induction d as [|[k0 v0] d IH]; simpl; [easy|].
  intros Hnd [H|H] [H'|H']; inversion Hnd as [|? ? Hk Hnd']; subst.
  - congruence.
  - injection H as -> ->. contradiction Hk. now apply (in_map fst _ (k, v')).
  - injection H' as -> ->. contradiction Hk. now apply (in_map fst _ (k, v)).
  - now apply IH.
Qed.

(** *** The groups of the environment *)

Lemma env_groups_inv (items : dict (option string)) (g : list string) :
  In g (flat_map (env_group h) items) ->
  exists name value v0,
    g = ["--setenv"; name; value] /\ In (name, v0) items
    /\ (v0 = Some value \/ (v0 = None /\ os_environ_get h name = Some value)).
Proof.
  induction items as [|[k v] items IH]; simpl; [easy|].
  intros H. apply in_app_or in H. destruct H as [H|H].
  - unfold env_group in H. simpl in H.
    destruct v as [v|]; [|destruct (os_environ_get h k) as [v|] eqn:E];
      simpl in H; try easy; destruct H as [<-|[]].
    + exists k, v, (Some v). auto.
    + exists k, v, None. auto.
  - destruct (IH H) as (name & value & v0 & Hg & Hin & Hv).
    exists name, value, v0. auto.
Qed.

Lemma env_groups_intro (items : dict (option string)) (name value : string)
      (v0 : option string) :
  In (name, v0) items ->
  v0 = Some value \/ (v0 = None /\ os_environ_get h name = Some value) ->
  In ["--setenv"; name; value] (flat_map (env_group h) items).
Proof.
  intros Hin Hv. apply in_flat_map. exists (name, v0). split; [exact Hin|].
  unfold env_group. simpl. destruct Hv as [->|[-> ->]]; now left.
Qed.

Lemma env_groups_sorted (items : dict (option string)) :
  StronglySorted (key_lt fst) items ->
  StronglySorted (key_lt (fun g => nth 1 g "")) (flat_map (env_group h) items).
Proof.
  induction 1 as [|[k v] items Hs IH Hk]; simpl; [constructor|].
  assert (Forall (key_lt (fun g => nth 1 g "") ["--setenv"; k; ""])
                 (flat_map (env_group h) items)) as Hall.
  { apply Forall_forall. intros g Hg.
    destruct (env_groups_inv _ _ Hg) as (name & value & v0 & -> & Hin & _).
    rewrite Forall_forall in Hk. exact (Hk _ Hin). }
  unfold env_group at 1. simpl.
  destruct v as [v|]; [|destruct (os_environ_get h k) as [v|]]; simpl;
    trivial; now constructor.
Qed.

End PlanFacts.

Lemma ascending_NoDup_strict {A : Type} (key : A -> string) (l : list A) :
  StronglySorted (key_le key) l -> NoDup (map key l) -> StronglySorted (key_lt key) l.
Proof.
  induction 1 as [|x l Hs IH Hx]; intros Hnd; [constructor|].
  simpl in Hnd. inversion Hnd as [|? ? Hout Hnd']; subst.
  constructor; [now apply IH|].
  rewrite Forall_forall in *. intros y Hy.
  apply string_ltb_iff. split; [exact (Hx y Hy)|].
  intros Heq. apply Hout. rewrite Heq. now apply in_map.
Qed.

Lemma strict_NoDup {A : Type} (key : A -> string) (l : list A) :
  StronglySorted (key_lt key) l -> NoDup (map key l).
Proof.
  induction 1 as [|x l Hs IH Hx]; simpl; constructor; [|exact IH].
  intros Hin. apply in_map_iff in Hin. destruct Hin as (y & Hy & Hin).
  rewrite Forall_forall in Hx. specialize (Hx y Hin).
  apply string_ltb_iff in Hx. destruct Hx as [_ Hne]. now apply Hne.
Qed.

Lemma sorted_strict {A : Type} (key : A -> string) (l : list A) :
  NoDup (map key l) -> StronglySorted (key_lt key) (Py.sorted key l).
Proof.
  intros Hnd. apply ascending_NoDup_strict; [apply sorted_StronglySorted|].
  eapply Permutation_NoDup; [|exact Hnd].
  apply Permutation_map. symmetry. apply sorted_Permutation.
Qed.

(** ** The environment *)

(** C5. In the argv that [create_bwrap_argv] returns, the groups between
    [--clearenv] and [--] are the environment: each is [--setenv NAME VALUE],
    the names are in strictly ascending order, and no name has two groups.
    A variable that is inherited if present ([HOME], [TERM], [USER],
    [WINEDEBUG]) has the group with its host value when the host sets it and
    no group at all when the host does not. The variables with a value of
    their own all have their group, so that the groups are exactly: the
    inherited variables that the host sets, [container], [HOSTNAME], [PATH]
    with the filtered search path, [PULSE_SERVER] with [--pulseaudio], and
    [DISPLAY] with a display. *)
Theorem environment_plan (h : Host) (config : Config) (s s' : State h)
    (argv : ArgvBuilder) :
  create_bwrap_argv h config s = (Ok argv, s') ->
  exists pre envs post,
    Argv.iter_groups argv = pre ++ [["--clearenv"]] ++ envs ++ [["--"]] ++ post
    /\ ~ In ["--clearenv"] pre
    /\ ~ In ["--"] envs
    /\ (forall g, In g envs -> exists name value, g = ["--setenv"; name; value])
    /\ StronglySorted (key_lt (fun g => nth 1 g "")) envs
    /\ (forall name, In name inherited ->
                     match os_environ_get h name with
                     | Some value => In ["--setenv"; name; value] envs
                     | None => forall value, ~ In ["--setenv"; name; value] envs
                     end)
    /\ NoDup (map (fun g => nth 1 g "") envs)
    /\ (x11_enabled (x11 config) = true -> x11_display_number config <> None)
    /\ exists plan s1 path,
        build_plan h config s = (Ok plan, s1)
        /\ fst (filter_path h (Py.sorted target (mount_tasks plan)) s1) = Ok path
        /\ forall name value,
            In ["--setenv"; name; value] envs
            <-> (In name inherited /\ os_environ_get h name = Some value)
                \/ (name = "container" /\ value = "sandwine")
                \/ (name = "HOSTNAME" /\ value = random_hostname h)
                \/ (name = "PATH" /\ value = path)
                \/ (name = "PULSE_SERVER" /\ pulseaudio config = true
                    /\ value = ("unix:" ++ pulseaudio_socket h)%string)
                \/ (name = "DISPLAY" /\ x11_enabled (x11 config) = true
                    /\ exists n, x11_display_number config = Some n
                                 /\ value = (":" ++ Py.str_of_N n)%string).
Proof.
  intros H. apply create_bwrap_argv_groups in H.
  destruct H as (plan & s1 & path & Hplan & Hfilter & ->).
  destruct (build_plan_inv h _ _ _ _ Hplan)
    as (_ & Hargv & Hun & Hnd & Hinh & Hpath & _).
  destruct (build_plan_env h _ _ _ _ Hplan) as (Hnum & Henv).
  rewrite (dict_set_new _ _ _ Hpath).
  assert (NoDup (map fst (env_tasks plan ++ [("PATH", Some path)]))) as Hnd'.
  { rewrite map_app. simpl. apply NoDup_app; [exact Hnd | repeat constructor; easy|].
    intros k Hk [<-|[]]. now apply Hpath. }
  set (items := Py.sorted fst (env_tasks plan ++ [("PATH", Some path)])) in *.
  assert (StronglySorted (key_lt (fun g => nth 1 g "")) (flat_map (env_group h) items))
    as Hsorted by (apply env_groups_sorted; now apply sorted_strict).
  exists (_groups (Argv.add (argv_so_far plan) (unshare_args plan))
          ++ map mount_group
               (filter (fun t => negb (missing h (world h s1) config
                                         (x11_unix_socket plan) t))
                       (Py.sorted target (mount_tasks plan)))),
    (flat_map (env_group h) items),
    (wrappers config (run_winecfg plan) ++ [inner_command h config]).
  split; [now rewrite <- !app_assoc|].
  split; [|split; [|split; [|split; [|split; [|split; [|split]]]]]].
  - intros Hin. apply in_app_or in Hin. destruct Hin as [Hin|Hin].
    + rewrite Hun in Hin. unfold Argv.add in Hin. simpl in Hin.
      rewrite Hargv in Hin. simpl in Hin.
      destruct (network config); simpl in Hin; intuition discriminate.
    + apply in_map_iff in Hin. destruct Hin as (t & Ht & _).
      unfold mount_group in Ht. now destruct (mode t).
  - intros Hin. apply env_groups_inv in Hin.
    now destruct Hin as (name & value & v0 & Hg & _).
  - intros g Hg. apply env_groups_inv in Hg.
    destruct Hg as (name & value & v0 & -> & _). now exists name, value.
  - exact Hsorted.
  - intros name Hname.
    assert (In (name, None) items) as Hin
      by (apply in_sorted, in_or_app; left; now apply Hinh).
    destruct (os_environ_get h name) as [value|] eqn:E.
    + eapply env_groups_intro; [exact Hin | now right].
    + intros value Hg. apply env_groups_inv in Hg.
      destruct Hg as (name' & value' & v0 & Heq & Hin' & Hv).
      injection Heq as <- <-.
      assert (NoDup (map fst items)) as Hnd''.
      { eapply Permutation_NoDup; [|exact Hnd'].
        apply Permutation_map. symmetry. apply sorted_Permutation. }
      pose proof (keys_unique _ _ _ _ Hnd'' Hin Hin') as <-.
      destruct Hv as [Hv|[_ Hv]]; congruence.
  - now apply strict_NoDup.
  - exact Hnum.
  - exists plan, s1, path. split; [exact Hplan|]. split; [exact Hfilter|].
    intros name value. split.
    + intros Hg. apply env_groups_inv in Hg.
      destruct Hg as (name' & value' & v0 & Heq & Hin & Hv).
      injection Heq as <- <-.
      eapply Permutation_in in Hin; [|apply sorted_Permutation].
      rewrite Henv in Hin.
      apply in_app_or in Hin. destruct Hin as [Hin|Hin];
        [apply in_app_or in Hin; destruct Hin as [Hin|Hin];
         [|apply in_app_or in Hin; destruct Hin as [Hin|Hin];
           [|apply in_app_or in Hin; destruct Hin as [Hin|Hin]]]|].
      * apply in_map_iff in Hin. destruct Hin as (k & Hk & Hin).
        injection Hk as Hk1 Hk2. subst k v0.
        destruct Hv as [Hv|[_ Hv]]; [discriminate|]. now left.
      * destruct Hin as [Hk|[Hk|[]]]; injection Hk as Hk1 Hk2; subst name v0;
          (destruct Hv as [Hv|[Hv _]]; [injection Hv as <-|discriminate]); tauto.
      * destruct (pulseaudio config); [|easy].
        destruct Hin as [Hk|[]]. injection Hk as Hk1 Hk2. subst name v0.
        destruct Hv as [Hv|[Hv _]]; [injection Hv as <-|discriminate].
        do 4 right. left. tauto.
      * destruct (x11_enabled (x11 config)); [|easy].
        destruct (x11_display_number config) as [n|]; [|easy].
        destruct Hin as [Hk|[]]. injection Hk as Hk1 Hk2. subst name v0.
        destruct Hv as [Hv|[Hv _]]; [injection Hv as <-|discriminate].
        do 5 right. split; [reflexivity|]. split; [reflexivity|]. now exists n.
      * destruct Hin as [Hk|[]]. injection Hk as Hk1 Hk2. subst name v0.
        destruct Hv as [Hv|[Hv _]]; [injection Hv as <-|discriminate].
        do 3 right. left. tauto.
    + intros Hcase.
      assert (exists v0, In (name, v0) (env_tasks plan ++ [("PATH", Some path)])
                         /\ (v0 = Some value
                             \/ (v0 = None /\ os_environ_get h name = Some value)))
        as (v0 & Hin & Hv).
      { rewrite Henv.
        destruct Hcase as [(Hname & Hval)|[(-> & ->)|[(-> & ->)|[(-> & ->)|
                           [(-> & Hp & ->)|(-> & Hx & n & Hn & ->)]]]]].
        - exists None. split; [|now right].
          apply in_or_app. left. apply in_or_app. left.
          apply in_map_iff. now exists name.
        - eexists. split; [|left; reflexivity].
          apply in_or_app. left. apply in_or_app. right. now left.
        - eexists. split; [|left; reflexivity].
          apply in_or_app. left. apply in_or_app. right. right. now left.
        - eexists. split; [|left; reflexivity].
          apply in_or_app. right. now left.
        - eexists. split; [|left; reflexivity].
          apply in_or_app. left. apply in_or_app. right.
          apply in_or_app. right. apply in_or_app. left. rewrite Hp. now left.
        - eexists. split; [|left; reflexivity].
          apply in_or_app. left. apply in_or_app. right.
          apply in_or_app. right. apply in_or_app. right. rewrite Hx, Hn. now left. }
      eapply env_groups_intro; [apply in_sorted; exact Hin | exact Hv].
Qed.

(** ** The setup gate *)

Lemma filter_path_state (h : Host) (tasks : list MountTask) (s : State h) :
  snd (filter_path h tasks s) = s.
Proof. unfold filter_path. now destruct (os_environ_get h "PATH"). Qed.

(** C4, as the code has it. The [winecfg] wrapper stands between the
    wineserver wrapper and the retry wrapper exactly when Wine is in use (no
    [--no-wine]) and either a display is enabled and ([--configure] was given
    or no [--dotwine] was given), or [--dotwine] names a host path that does
    not exist, display or not; in that last case the directory is created
    with [os.makedirs]. *)
Theorem winecfg_wrapper_gate (h : Host) (config : Config) (s s' : State h)
    (argv : ArgvBuilder) :
  create_bwrap_argv h config s = (Ok argv, s') ->
  (exists pre,
      ~ In ["--"] pre
      /\ Argv.iter_groups argv
         = pre ++ [["--"]]
           ++ (if with_wine config then [wineserver_wrapper] else [])
           ++ (if with_wine config
                  && ((x11_enabled (x11 config)
                       && (configure config
                           || match dotwine config with None => true | Some _ => false end))
                      || dotwine_fresh h (world h s) config)
               then [winecfg_wrapper] else [])
           ++ (if second_try config then [second_try_wrapper] else [])
           ++ [inner_command h config])
  /\ (forall src, dotwine_source config = Some src ->
                  os_path_exists h (world h s) src = false ->
                  world h s' = os_makedirs h src (world h s)
                  /\ In (EvMakedirs src) (trace h s')).
Proof.
  intros H. pose proof (create_bwrap_argv_inv h _ _ _ _ H) as Hinv.
  apply create_bwrap_argv_groups in H.
  destruct H as (plan & s1 & path & Hplan & _ & Hg).
  destruct Hinv as (plan' & s1' & argv1 & s2 & path' & Hplan' & Hr & Hf & _).
  rewrite Hplan in Hplan'. injection Hplan' as <- <-.
  destruct (build_plan_inv h _ _ _ _ Hplan)
    as (Hrw & Hargv & Hun & _ & _ & _ & Hw & Hev).
  split.
  - exists (_groups (Argv.add (argv_so_far plan) (unshare_args plan))
            ++ map mount_group
                 (filter (fun t => negb (missing h (world h s1) config
                                           (x11_unix_socket plan) t))
                         (Py.sorted target (mount_tasks plan)))
            ++ [["--clearenv"]]
            ++ flat_map (env_group h)
                 (Py.sorted fst (dict_set (env_tasks plan) "PATH" (Some path)))).
    split.
    + intros Hin. apply in_app_or in Hin. destruct Hin as [Hin|Hin].
      { rewrite Hun in Hin. unfold Argv.add in Hin. simpl in Hin.
        rewrite Hargv in Hin. simpl in Hin.
        destruct (network config); simpl in Hin; intuition discriminate. }
      apply in_app_or in Hin. destruct Hin as [Hin|Hin].
      { apply in_map_iff in Hin. destruct Hin as (t & Ht & _).
        unfold mount_group in Ht. now destruct (mode t). }
      destruct Hin as [Hin|Hin]; [discriminate|].
      apply env_groups_inv in Hin. now destruct Hin as (? & ? & ? & ? & _).
    + rewrite Hg. unfold wrappers. rewrite Hrw, (andb_comm _ (with_wine config)).
      now rewrite <- !app_assoc.
  - intros src Hsrc Hex.
    assert (dotwine_fresh h (world h s) config = true) as Hfresh
      by (unfold dotwine_fresh; now rewrite Hsrc, Hex).
    rewrite Hfresh, Hsrc in Hw.
    pose proof (filter_path_state h (Py.sorted target (mount_tasks plan)) s2) as Hs.
    rewrite Hf in Hs. simpl in Hs. subst s'.
    pose proof (render_ok_inv _ _ _ _ _ _ _ _ Hr) as Hreq.
    rewrite (render_ok _ _ _ _ _ _ Hreq) in Hr. injection Hr as _ <-. simpl.
    split; [exact Hw|]. apply in_or_app. left. now apply Hev.
Qed.

(** ** The search path *)

(** The condition of the comprehension: some bind-type task of the sorted
    list has a target under which the candidate lies. *)
Lemma path_available_iff (tasks : list MountTask) (candidate : string) :
  path_available tasks candidate = true <->
  exists t, In t tasks /\ is_bind (mode t) = true
            /\ Py.startswith (single_trailing_sep candidate)
                              (single_trailing_sep (target t)) = true.
Proof.
  unfold path_available. rewrite existsb_exists. split.
  - intros (t & Hin & Ht). apply andb_prop in Ht. exists t.
    rewrite in_rev. tauto.
  - intros (t & Hin & Hb & Hp). exists t. rewrite <- in_rev. now rewrite Hb, Hp.
Qed.

(** C6, as the code has it. The candidates are the entries of the host
    [PATH] followed by [/usr/lib/wine]; they are made canonical, those that
    lie under the target of a bind-type task are kept in their order, each
    as often as it is a candidate, and joined. With a host search path [A:B] where the canonical [A] lies under a
    bind target and the canonical [B] under none, the result is the
    canonical [A], followed by the canonical [/usr/lib/wine] when that lies
    under a bind target; the canonical [B] is not in it. *)
Theorem search_path_resolution (h : Host) (sorted_mount_tasks : list MountTask)
    (s : State h) :
  (forall path, os_environ_get h "PATH" = Some path ->
     exists available_paths,
       fst (filter_path h sorted_mount_tasks s) = Ok (Py.join ":" available_paths)
       /\ Subseq available_paths
            (map (os_path_realpath h (world h s))
                 (Py.split ":" path ++ ["/usr/lib/wine"]))
       /\ (forall c, In c available_paths <->
                     In c (map (os_path_realpath h (world h s))
                               (Py.split ":" path ++ ["/usr/lib/wine"]))
                     /\ path_available sorted_mount_tasks c = true)
       /\ available_paths
          = filter (path_available sorted_mount_tasks)
                   (map (os_path_realpath h (world h s))
                        (Py.split ":" path ++ ["/usr/lib/wine"])))
  /\ (forall A B,
         os_environ_get h "PATH" = Some (A ++ ":" ++ B)%string ->
         Py.contains ":" A = false -> Py.contains ":" B = false ->
         path_available sorted_mount_tasks (os_path_realpath h (world h s) A) = true ->
         path_available sorted_mount_tasks (os_path_realpath h (world h s) B) = false ->
         exists available_paths,
           fst (filter_path h sorted_mount_tasks s) = Ok (Py.join ":" available_paths)
           /\ available_paths
              = os_path_realpath h (world h s) A
                :: filter (path_available sorted_mount_tasks)
                          [os_path_realpath h (world h s) "/usr/lib/wine"]
           /\ ~ In (os_path_realpath h (world h s) B) available_paths).
Proof.
  split.
  - intros path Hpath. unfold filter_path. rewrite Hpath.
    unfold bind, realpath_all, ret. simpl.
    eexists. split; [reflexivity|]. split; [apply filter_Subseq|].
    split; [intros c; apply filter_In | reflexivity].
  - intros A B Hpath HA HB HAin HBout. unfold filter_path. rewrite Hpath.
    unfold bind, realpath_all, ret. simpl.
    eexists. split; [reflexivity|].
    change (A ++ String ":" B)%string with (A ++ String Py.os_pathsep B)%string.
    rewrite split_append, split_no_sep by assumption.
    simpl. rewrite HAin, HBout. split; [reflexivity|].
    intros Hin.
    assert (In (os_path_realpath h (world h s) B)
               (filter (path_available sorted_mount_tasks)
                       (map (os_path_realpath h (world h s)) [A; "/usr/lib/wine"])))
      as Hin' by (simpl; now rewrite HAin).
    apply filter_In in Hin'. destruct Hin' as [_ Hin']. congruence.
Qed.

(** ** The theorems at concrete inputs *)

Lemma parse_path_colon_access_spec_witness :
  let cfg := Sample.config X11_NONE None (Some "/x:rx") [] false true in
  let s := Sample.start [] Sample.usual in
  malformed "/x:rx" = true
  /\ exit_status (fst (main (Sample.host []) cfg s)) = 1%Z
  /\ executor_calls (trace _ (snd (main (Sample.host []) cfg s))) = [].
Proof.
  split; [reflexivity|].
  apply (proj2 (proj2 (proj2 (proj2 parse_path_colon_access_spec)))).
  left. exists "/x:rx". split; reflexivity.
Defined.

Lemma parse_path_colon_access_last_colon_witness :
  parse_path_colon_access "/a:rw:ro" = Ok ("/a:rw", READ_ONLY).
Proof.
  apply (parse_path_colon_access_last_colon "/a:rw:ro" "/a:rw" "ro");
    [reflexivity | reflexivity | left; reflexivity].
Defined.

Lemma sorted_mount_tasks_order_witness :
  let a := MountTask_default BIND_RO "/opt/b" in
  let b := MountTask_default BIND_RW "/opt/a" in
  map target (Py.sorted target [a; b]) = map target (Py.sorted target [b; a]).
Proof.
  intros a b. apply (proj1 (proj2 (proj2 (sorted_mount_tasks_order [a; b])))).
  apply perm_swap.
Defined.

(** C2, as it is stated, fails: with [--pass /a-b:ro --pass /a:ro --pass /a:rw]
    the targets are consumed in the order [/a], [/a], [/a-b], which is not
    ascending for the targets with a trailing separator ([/a-b/] is below
    [/a/]), and not strictly ascending either way; and the two tasks on [/a]
    come out as they were put in. *)
Lemma sorted_mount_tasks_not_normalized_strict :
  let tasks := [MountTask_default BIND_RO "/a-b"; MountTask_default BIND_RO "/a";
                MountTask_default BIND_RW "/a"] in
  let normalized := fun t => single_trailing_sep (target t) in
  map target (Py.sorted target tasks) = ["/a"; "/a"; "/a-b"]
  /\ ~ StronglySorted (key_lt normalized) (Py.sorted target tasks)
  /\ ~ StronglySorted (key_le normalized) (Py.sorted target tasks)
  /\ ~ StronglySorted (key_lt target) (Py.sorted target tasks)
  /\ Py.sorted target [MountTask_default BIND_RO "/a"; MountTask_default BIND_RW "/a"]
     <> Py.sorted target [MountTask_default BIND_RW "/a"; MountTask_default BIND_RO "/a"].
Proof.
  intros tasks normalized. split; [reflexivity|].
  split; [|split; [|split]].
  - intros H. vm_compute in H. inversion H as [|? ? _ Hf]; subst.
    inversion Hf as [|? ? Hx _]; subst. discriminate Hx.
  - intros H. vm_compute in H. inversion H as [|? ? Hs _]; subst.
    inversion Hs as [|? ? _ Hf]; subst.
    inversion Hf as [|? ? Hx _]; subst. discriminate Hx.
  - intros H. vm_compute in H. inversion H as [|? ? _ Hf]; subst.
    inversion Hf as [|? ? Hx _]; subst. discriminate Hx.
  - vm_compute. discriminate.
Qed.

Lemma missing_source_policy_witness :
  let h := Sample.host [("PATH", "/usr/bin")] in
  let s0 := Sample.start [("PATH", "/usr/bin")] ["/usr"] in
  exit_status (fst (main h Sample.config0 s0)) = 1%Z
  /\ executor_calls (trace h (snd (main h Sample.config0 s0))) = [].
Proof.
  intros h s0.
  eapply (proj2 (proj1 (missing_source_policy h Sample.config0 None
                          [MountTask_default TMPFS "/"] _
                          (MountTask_default BIND_RO "/bin") _ _
                          (logged s0 (EvCall probe)) _
                          eq_refl eq_refl eq_refl eq_refl) eq_refl)
            Sample.config0 s0);
    reflexivity.
Defined.

Lemma winecfg_wrapper_gate_witness :
  let h := Sample.host [("PATH", "/usr/bin")] in
  let s := Sample.start [("PATH", "/usr/bin")] Sample.usual in
  let cfg := Sample.config X11_NONE None (Some "/missing:rw") [] false true in
  exists argv s',
    create_bwrap_argv h cfg s = (Ok argv, s')
    /\ world h s' = "/missing" :: Sample.usual
    /\ In (EvMakedirs "/missing") (trace h s').
Proof.
  intros h s cfg.
  destruct (create_bwrap_argv h cfg s) as [[argv|e] s'] eqn:E;
    [|vm_compute in E; discriminate].
  exists argv, s'. split; [reflexivity|].
  exact (proj2 (winecfg_wrapper_gate h cfg s s' argv E) "/missing" eq_refl eq_refl).
Defined.

Lemma environment_plan_witness :
  let env := [("PATH", "/usr/bin"); ("WINEDEBUG", "warn")] in
  let h := Sample.host env in
  let s := Sample.start env Sample.usual in
  exists argv s',
    create_bwrap_argv h Sample.config0 s = (Ok argv, s')
    /\ exists pre envs post,
        Argv.iter_groups argv = pre ++ [["--clearenv"]] ++ envs ++ [["--"]] ++ post
        /\ In ["--setenv"; "WINEDEBUG"; "warn"] envs
        /\ (forall value, ~ In ["--setenv"; "TERM"; value] envs)
        /\ In ["--setenv"; "container"; "sandwine"] envs
        /\ In ["--setenv"; "PATH"; "/usr/bin:/usr/lib/wine"] envs
        /\ forall value, ~ In ["--setenv"; "DISPLAY"; value] envs.
Proof.
  intros env h s.
  destruct (create_bwrap_argv h Sample.config0 s) as [[argv|e] s'] eqn:E;
    [|vm_compute in E; discriminate].
  exists argv, s'. split; [reflexivity|].
  destruct (environment_plan h Sample.config0 s s' argv E)
    as (pre & envs & post & Hg & _ & _ & _ & _ & Hinh & _ & _
        & plan & s1 & path & Hplan & Hpath & Hiff).
  vm_compute in Hplan. injection Hplan as <- <-.
  vm_compute in Hpath. injection Hpath as <-.
  exists pre, envs, post. split; [exact Hg|].
  split; [apply (Hinh "WINEDEBUG"); simpl; tauto|].
  split; [apply (Hinh "TERM"); simpl; tauto|].
  split; [apply Hiff; tauto|].
  split; [apply Hiff; tauto|].
  intros value Hin. apply Hiff in Hin.
  destruct Hin as [([Hn|[Hn|[Hn|[Hn|[]]]]] & _)|[(Hn & _)|[(Hn & _)|[(Hn & _)|
                   [(Hn & _)|(_ & Hx & _)]]]]]; discriminate.
Defined.

Lemma search_path_resolution_witness :
  let h := Sample.host [("PATH", "/usr/bin:/opt/x")] in
  let s := Sample.start [("PATH", "/usr/bin:/opt/x")] Sample.usual in
  let tasks := [MountTask_default BIND_RO "/usr"] in
  exists available_paths,
    fst (filter_path h tasks s) = Ok (Py.join ":" available_paths)
    /\ available_paths = ["/usr/bin"; "/usr/lib/wine"]
    /\ ~ In "/opt/x" available_paths.
Proof.
  intros h s tasks.
  exact (proj2 (search_path_resolution h tasks s) "/usr/bin" "/opt/x"
           eq_refl eq_refl eq_refl eq_refl eq_refl).
Defined.

Lemma non_bind_tasks_always_rendered_witness :
  let h := Sample.host [("PATH", "/usr/bin")] in
  let s := Sample.start [("PATH", "/usr/bin")] Sample.usual in
  exists argv s',
    create_bwrap_argv h Sample.config0 s = (Ok argv, s')
    /\ In ["--proc"; "/proc"] (Argv.iter_groups argv).
Proof.
  intros h s.
  destruct (create_bwrap_argv h Sample.config0 s) as [[argv|e] s'] eqn:E;
    [|vm_compute in E; discriminate].
  exists argv, s'. split; [reflexivity|].
  eapply (proj2 (proj2 (proj2 (non_bind_tasks_always_rendered h Sample.config0)))
            s _ _ argv s' eq_refl E (MountTask_default PROC "/proc"));
    [vm_compute; tauto | reflexivity].
Defined.

Lemma duplicate_targets_keep_insertion_order_witness :
  let h := Sample.host [("PATH", "/usr/bin")] in
  let s := Sample.start [("PATH", "/usr/bin")] Sample.usual in
  let cfg := Sample.config X11_NONE None None ["/usr:rw"] false true in
  exists argv s' pre mounts rest,
    create_bwrap_argv h cfg s = (Ok argv, s')
    /\ Argv.iter_groups argv = pre ++ mounts ++ [["--clearenv"]] ++ rest
    /\ filter (fun g => last g "" =? "/usr") mounts
       = [["--ro-bind"; "/usr"; "/usr"]; ["--bind"; "/usr"; "/usr"]].
Proof.
  intros h s cfg.
  destruct (create_bwrap_argv h cfg s) as [[argv|e] s'] eqn:E;
    [|vm_compute in E; discriminate].
  destruct (proj2 (duplicate_targets_keep_insertion_order h) cfg s _ _ argv s' eq_refl E)
    as (mounts & rest & Hg & Hk & _).
  exists argv, s'. eexists. exists mounts, rest.
  split; [reflexivity|]. split; [exact Hg|].
  rewrite (Hk "/usr"). reflexivity.
Defined.

(** ** Where the code departs from the specification *)

(** C4, as it is stated, fails in both directions: with
    [--dotwine /missing:rw] and no display the wrapper is included, and with
    a display, [--configure] and [--no-wine] it is not. *)
Lemma winecfg_wrapper_without_display :
  let env := [("PATH", "/usr/bin")] in
  let h := Sample.host env in
  let s := Sample.start env Sample.usual in
  let fresh := Sample.config X11_NONE None (Some "/missing:rw") [] false true in
  let no_wine := Sample.config X11_XEPHYR (Some 0%N) None [] true false in
  (x11_enabled (x11 fresh) = false
   /\ exists argv, fst (create_bwrap_argv h fresh s) = Ok argv
                   /\ In winecfg_wrapper (Argv.iter_groups argv))
  /\ (x11_enabled (x11 no_wine) = true /\ configure no_wine = true
      /\ exists argv, fst (create_bwrap_argv h no_wine s) = Ok argv
                      /\ ~ In winecfg_wrapper (Argv.iter_groups argv)).
Proof.
  intros env h s fresh no_wine. split.
  - split; [reflexivity|]. eexists. split; [vm_compute; reflexivity|].
    vm_compute. tauto.
  - split; [reflexivity|]. split; [reflexivity|].
    eexists. split; [vm_compute; reflexivity|].
    vm_compute. intuition discriminate.
Qed.

(** C10, as it is stated, fails: with [--dotwine /srv/wine:rw] and the
    program [/home/u/.wine], which the host does not have, the plan holds the
    required bind of [/srv/wine] and the optional bind of the program, both
    with the target [/home/u/.wine]; the first is rendered and the second is
    dropped, so that one group of the argv has this target, not two. *)
Lemma duplicate_target_dropped :
  let env := [("PATH", "/usr/bin")] in
  let h := Sample.host env in
  let s := Sample.start env ("/srv/wine" :: Sample.usual) in
  let cfg := mkConfig (Some "/home/u/.wine") [] X11_NONE None false false
                      (Some "/srv/wine:rw") [] false true true false in
  let t1 := mkMountTask BIND_RW "/home/u/.wine" (Some "/srv/wine") true in
  let t2 := mkMountTask BIND_RO "/home/u/.wine" None false in
  exists plan s1 argv s',
    build_plan h cfg s = (Ok plan, s1)
    /\ create_bwrap_argv h cfg s = (Ok argv, s')
    /\ filter (fun t => target t =? "/home/u/.wine") (mount_tasks plan) = [t1; t2]
    /\ target t1 = target t2
    /\ In (mount_group t1) (Argv.iter_groups argv)
    /\ ~ In (mount_group t2) (Argv.iter_groups argv)
    /\ filter (fun g => last g "" =? "/home/u/.wine") (Argv.iter_groups argv)
       = [mount_group t1].
Proof.
  intros env h s cfg t1 t2.
  do 4 eexists.
  split; [vm_compute; reflexivity|].
  split; [vm_compute; reflexivity|].
  split; [reflexivity|].
  split; [reflexivity|].
  split; [vm_compute; tauto|].
  split; [|reflexivity].
  vm_compute. intuition discriminate.
Qed.

(** C6, as it is stated, fails: with the host search path [/usr:/opt] and
    [/usr] the only bind target, the result is [/usr:/usr/lib/wine], not the
    canonical [/usr] alone; and in a run of the builder with the host search
    path [/usr/bin:/opt/x] the variable is set to [/usr/bin:/usr/lib/wine]. *)
Lemma search_path_keeps_wine_directory :
  let tasks := [MountTask_default BIND_RO "/usr"] in
  let h := Sample.host [("PATH", "/usr:/opt")] in
  let h' := Sample.host [("PATH", "/usr/bin:/opt/x")] in
  path_available tasks "/usr" = true
  /\ path_available tasks "/opt" = false
  /\ fst (filter_path h tasks (Sample.start _ Sample.usual)) = Ok "/usr:/usr/lib/wine"
  /\ fst (filter_path h tasks (Sample.start _ Sample.usual)) <> Ok "/usr"
  /\ exists argv,
      fst (create_bwrap_argv h' Sample.config0 (Sample.start _ Sample.usual)) = Ok argv
      /\ In ["--setenv"; "PATH"; "/usr/bin:/usr/lib/wine"] (Argv.iter_groups argv).
Proof.
  intros tasks h h'. repeat split; try reflexivity.
  - vm_compute. discriminate.
  - eexists. split; [vm_compute; reflexivity|]. vm_compute. tauto.
Qed.

(** C1: the code at the failing input. On a host without [/lib32] and with
    the search path [/lib32/bin], the only bind-type task whose target
    contains [/lib32/bin] is the one of [/lib32]; it is dropped from the mount
    stack, and [/lib32/bin] is kept in the search path all the same. *)
Theorem search_path_keeps_dropped_mount :
  let env := [("PATH", "/lib32/bin")] in
  let h := Sample.host env in
  let s := Sample.start env Sample.usual in
  os_path_exists h (world h s) "/lib32" = false
  /\ (exists plan,
        fst (build_plan h Sample.config0 s) = Ok plan
        /\ filter (fun t => is_bind (mode t)
                            && Py.startswith (single_trailing_sep "/lib32/bin")
                                             (single_trailing_sep (target t)))
                  (mount_tasks plan)
           = [mkMountTask BIND_RO "/lib32" None false])
  /\ exists argv,
      fst (create_bwrap_argv h Sample.config0 s) = Ok argv
      /\ ~ In ["--ro-bind"; "/lib32"; "/lib32"] (Argv.iter_groups argv)
      /\ In ["--setenv"; "PATH"; "/lib32/bin:/usr/lib/wine"] (Argv.iter_groups argv).
Proof.
  intros env h s. split; [reflexivity|]. split.
  - eexists. split; [vm_compute; reflexivity|]. reflexivity.
  - eexists. split; [vm_compute; reflexivity|]. split.
    + vm_compute. intuition discriminate.
    + vm_compute. tauto.
Qed.

(** ** Further properties of the module *)

(** *** [single_trailing_sep] *)

Lemma rstrip_idempotent (c : ascii) (s : string) :
  Py.rstrip c (Py.rstrip c s) = Py.rstrip c s.
Proof.
  induction s as [|a s IH]; simpl; [reflexivity|].
  destruct (Py.rstrip c s) as [|b r] eqn:E.
  - destruct (Ascii.eqb a c) eqn:Hac; simpl; [reflexivity|]. now rewrite Hac.
  - simpl in *. now rewrite IH.
Qed.

Lemma rstrip_append_sep (c : ascii) (s : string) :
  Py.rstrip c (s ++ String c EmptyString) = Py.rstrip c s.
Proof.
  induction s as [|a s IH]; simpl.
  - now rewrite Ascii.eqb_refl.
  - now rewrite IH.
Qed.

(** X1. The result of [single_trailing_sep] ends with exactly one separator:
    it is a string without trailing separator followed by one separator;
    the function is idempotent, and separators at the end of its argument
    make no difference. *)
Theorem single_trailing_sep_normal (path : string) :
  single_trailing_sep (single_trailing_sep path) = single_trailing_sep path
  /\ single_trailing_sep (path ++ "/") = single_trailing_sep path
  /\ exists stem, single_trailing_sep path = (stem ++ "/")%string
                  /\ Py.rstrip "/" stem = stem.
Proof.
  unfold single_trailing_sep, Py.os_sep. split; [|split].
  - now rewrite rstrip_append_sep, rstrip_idempotent.
  - now rewrite rstrip_append_sep.
  - exists (Py.rstrip "/" path). split; [reflexivity | apply rstrip_idempotent].
Qed.

Lemma prefix_cons (x y : ascii) (a b : string) :
  String.prefix (String x a) (String y b) = true <-> x = y /\ String.prefix a b = true.
Proof.
  simpl. destruct (Ascii.ascii_dec x y) as [Heq|Hne]; split.
  - auto.
  - now intros [_ H].
  - discriminate.
  - intros [H _]. now contradiction Hne.
Qed.

Lemma prefix_empty (b : string) : String.prefix "" b = true.
Proof. now destruct b. Qed.

Lemma prefix_append_sep (c : ascii) (a b : string) :
  String.prefix (a ++ String c EmptyString) (b ++ String c EmptyString) = true
  <-> a = b \/ String.prefix (a ++ String c EmptyString) b = true.
Proof.
  revert b. induction a as [|x a IH]; intros [|y b];
    cbn [String.append]; rewrite ?prefix_cons, ?prefix_empty.
  - split; intros _; [now left | now split].
  - split.
    + intros [H _]. right. now split.
    + intros [H|[H _]]; [discriminate | now split].
  - split.
    + intros [_ H]. now destruct a.
    + intros [H|H]; discriminate.
  - rewrite IH. split.
    + intros [Hxy [Hab|H]]; subst; [now left | right; now split].
    + intros [H|[Hxy H]].
      * injection H as Hxy Hab. subst. split; [reflexivity | now left].
      * subst. split; [reflexivity | now right].
Qed.

(** X2. The containment test of the search-path filter: a candidate lies
    under a target exactly when, trailing separators apart, it is the target
    or starts with the target followed by a separator; a sibling whose name
    merely starts with the target's name does not pass. *)
Theorem containment_test (candidate tgt : string) :
  Py.startswith (single_trailing_sep candidate) (single_trailing_sep tgt) = true
  <-> Py.rstrip "/" candidate = Py.rstrip "/" tgt
      \/ Py.startswith (Py.rstrip "/" candidate) (Py.rstrip "/" tgt ++ "/") = true.
Proof.
  unfold Py.startswith, single_trailing_sep, Py.os_sep.
  rewrite prefix_append_sep. split; intros [H|H]; auto.
Qed.

(** *** The order of nested targets *)

Lemma string_leb_append (p x : string) : String.leb p (p ++ x) = true.
Proof.
  unfold String.leb. induction p as [|a p IH]; simpl.
  - now destruct x.
  - destruct (ascii_compare_spec a a) as [_|H|H]; trivial; lia.
Qed.

Lemma append_self_empty (p x : string) : (p ++ x)%string = p -> x = "".
Proof.
  induction p as [|a p IH]; simpl; [auto|].
  intros H. injection H as H. auto.
Qed.

(** X3. A task whose target properly extends the target of another task
    of the plan is consumed after it: the parent directory is always mounted
    before what is nested in it. *)
Theorem parent_target_first (tasks l1 l2 : list MountTask) (a b : MountTask)
    (rest : string) :
  In a tasks ->
  target b = (target a ++ rest)%string ->
  rest <> "" ->
  Py.sorted target tasks = l1 ++ b :: l2 ->
  In a l1.
Proof.
  intros Hin Hb Hrest Hs.
  pose proof (sorted_StronglySorted target tasks) as Hsorted.
  apply (in_sorted target) in Hin. rewrite Hs in Hin, Hsorted.
  apply in_app_or in Hin. destruct Hin as [Hin|[->|Hin]]; [exact Hin| |].
  - contradiction Hrest. now apply (append_self_empty (target a)).
  - contradiction Hrest.
    assert (StronglySorted (key_le target) (b :: l2)) as Hb2.
    { clear -Hsorted. induction l1 as [|x l1 IH]; [exact Hsorted|].
      apply IH. now inversion Hsorted. }
    inversion Hb2 as [|? ? _ Hall]; subst.
    rewrite Forall_forall in Hall. specialize (Hall a Hin).
    unfold key_le in Hall. rewrite Hb in Hall.
    apply (append_self_empty (target a)).
    apply String.leb_antisym; [exact Hall | apply string_leb_append].
Qed.

(** *** [ArgvBuilder] *)

Lemma iter_flat_add (b : ArgvBuilder) (args : list string) :
  Argv.iter_flat (Argv.add b args) = Argv.iter_flat b ++ args.
Proof.
  unfold Argv.iter_flat, Argv.add. destruct args as [|a args]; simpl.
  - now rewrite app_nil_r.
  - rewrite concat_app. simpl. now rewrite app_nil_r.
Qed.

(** X4. Whatever groups are added to a new [ArgvBuilder], empty ones
    included, the flat argv is their concatenation in the order of the calls,
    the groups kept are the non-empty ones in that order, and no group of the
    builder is empty. *)
Theorem argv_builder_accumulates (added : list (list string)) :
  let b := fold_left Argv.add added Argv.init in
  Argv.iter_flat b = concat added
  /\ Argv.iter_groups b = filter (fun g => negb (Nat.eqb (length g) 0)) added
  /\ ~ In [] (Argv.iter_groups b).
Proof.
  assert (forall b0,
             Argv.iter_flat (fold_left Argv.add added b0)
             = Argv.iter_flat b0 ++ concat added
             /\ Argv.iter_groups (fold_left Argv.add added b0)
                = Argv.iter_groups b0
                  ++ filter (fun g => negb (Nat.eqb (length g) 0)) added) as H.
  { induction added as [|g added IH]; intros b0; simpl.
    - now rewrite !app_nil_r.
    - destruct (IH (Argv.add b0 g)) as [Hf Hg]. rewrite Hf, Hg, iter_flat_add.
      split; [now rewrite <- app_assoc|].
      destruct g as [|x g]; simpl; [reflexivity|].
      unfold Argv.iter_groups. simpl. now rewrite <- app_assoc. }
  intros b. destruct (H Argv.init) as [Hf Hg]. subst b.
  split; [exact Hf|]. split; [exact Hg|].
  rewrite Hg. simpl. intros Hin. apply filter_In in Hin. now destruct Hin.
Qed.

(** *** [parse_path_colon_access] and [AccessMode] *)

(** X7. Parsing inverts the notation: a token parses to a path and an
    access mode exactly when it is that path, a colon and the value of the
    mode. *)
Theorem parse_path_colon_access_round_trip (candidate path : string)
    (access : AccessMode) :
  parse_path_colon_access candidate = Ok (path, access)
  <-> candidate = (path ++ ":" ++ AccessMode_value access)%string.
Proof.
  split.
  - intros H. destruct (parse_inv candidate) as [Hc|(p & q & -> & Hq)].
    + rewrite (parse_no_colon _ Hc) in H. discriminate.
    + rewrite (parse_cut p q Hq) in H.
      destruct (String.eqb_spec q "ro") as [Hro|Hro].
      { injection H as <- <-. now subst q. }
      destruct (String.eqb_spec q "rw") as [Hrw|Hrw]; [|discriminate].
      injection H as <- <-. now subst q.
  - intros ->. rewrite parse_cut by now destruct access.
    now destruct access.
Qed.

(** *** The loop of [--pass] *)

Lemma add_extra_binds_ok (h : Host) (binds : list string) :
  forall tasks tasks',
    add_extra_binds h binds tasks = Ok tasks' ->
    tasks' = tasks ++ flat_map (extra_bind_task h) binds
    /\ Forall (fun b => malformed b = false) binds.
Proof.
  induction binds as [|b binds IH]; intros tasks tasks' H; simpl in *.
  - injection H as <-. now rewrite app_nil_r.
  - unfold extra_bind_task at 1, malformed.
    destruct (parse_path_colon_access b) as [[p m]|e0] eqn:P; [|discriminate].
    destruct (IH _ _ H) as (-> & Hall). split; [now rewrite <- app_assoc|].
    constructor; [unfold malformed; now rewrite P | exact Hall].
Qed.

Lemma add_extra_binds_raise (h : Host) (binds : list string) :
  forall tasks e,
    add_extra_binds h binds tasks = Raise e ->
    exists good bad rest,
      binds = good ++ bad :: rest
      /\ Forall (fun b => malformed b = false) good
      /\ malformed bad = true /\ e = ValueError bad.
Proof.
  induction binds as [|b binds IH]; intros tasks e H; simpl in *; [discriminate|].
  destruct (parse_path_colon_access b) as [[p m]|e0] eqn:P.
  - destruct (IH _ _ H) as (good & bad & rest & -> & Hg & Hb & ->).
    exists (b :: good), bad, rest. split; [reflexivity|].
    split; [|now split].
    constructor; [unfold malformed; now rewrite P | exact Hg].
  - injection H as <-.
    exists [], b, binds. split; [reflexivity|]. split; [constructor|].
    split; [unfold malformed; now rewrite P | now rewrite (parse_raise_inv _ _ P)].
Qed.

(** X8. The loop over the [--pass] tokens either appends, in the order of
    the tokens, one required bind per token at the absolute form of its path
    (read-write for [rw], read-only for [ro], source left to default to the
    target), in which case every token is well formed; or it raises the
    [ValueError] of the first malformed token. *)
Theorem add_extra_binds_spec (h : Host) (binds : list string) (tasks : list MountTask) :
  (forall tasks', add_extra_binds h binds tasks = Ok tasks' ->
                  tasks' = tasks ++ flat_map (extra_bind_task h) binds
                  /\ Forall (fun b => malformed b = false) binds
                  /\ Forall (fun t => required t = true /\ source t = None
                                      /\ is_bind (mode t) = true)
                            (flat_map (extra_bind_task h) binds))
  /\ (forall e, add_extra_binds h binds tasks = Raise e ->
                exists good bad rest,
                  binds = good ++ bad :: rest
                  /\ Forall (fun b => malformed b = false) good
                  /\ malformed bad = true /\ e = ValueError bad).
Proof.
  split.
  - intros tasks' H. destruct (add_extra_binds_ok h binds _ _ H) as (-> & Hall).
    split; [reflexivity|]. split; [exact Hall|].
    apply Forall_forall. intros t Ht. apply in_flat_map in Ht.
    destruct Ht as (b & _ & Ht). unfold extra_bind_task in Ht.
    destruct (parse_path_colon_access b) as [[p m]|e0]; [|easy].
    destruct Ht as [<-|[]]. now destruct m.
  - intros e. apply add_extra_binds_raise.
Qed.

(** *** [announce_to] *)

Lemma string_append_empty (s : string) : (s ++ "")%string = s.
Proof. induction s as [|a s IH]; simpl; [reflexivity | now rewrite IH]. Qed.

Lemma announce_tail (h : Host) (n k : nat) (mids : list (list string))
      (final : list string) :
  1 <= k -> n = k + length mids + 1 ->
  map (fun ig : nat * list string =>
         let (i, group) := ig in
         ((if Nat.eqb i 0 then "# " else "    ") ++ shlex_join h group
          ++ (if Nat.eqb i (n - 1) then "" else " \"))%string)
      (combine (seq k (length (mids ++ [final]))) (mids ++ [final]))
  = map (fun g => ("    " ++ shlex_join h g ++ " \")%string) mids
    ++ [("    " ++ shlex_join h final)%string].
Proof.
  revert k. induction mids as [|g mids IH]; intros k Hk Hn; simpl in *.
  - replace (Nat.eqb k 0) with false by (symmetry; apply Nat.eqb_neq; lia).
    replace (Nat.eqb k (n - 1)) with true by (symmetry; apply Nat.eqb_eq; lia).
    simpl. now rewrite string_append_empty.
  - replace (Nat.eqb k 0) with false by (symmetry; apply Nat.eqb_neq; lia).
    replace (Nat.eqb k (n - 1)) with false by (symmetry; apply Nat.eqb_neq; lia).
    f_equal. apply IH; lia.
Qed.

(** X5. What [announce_to] prints: nothing for an empty builder; for one
    group, that group behind the comment mark; otherwise the first group
    behind the comment mark, every later group indented by four spaces, and a
    continuation mark at the end of every line but the last. *)
Theorem announce_to_lines (h : Host) :
  announce_to h (mkArgvBuilder []) = []
  /\ (forall g, announce_to h (mkArgvBuilder [g]) = [("# " ++ shlex_join h g)%string])
  /\ (forall g mids final,
         announce_to h (mkArgvBuilder (g :: mids ++ [final]))
         = ("# " ++ shlex_join h g ++ " \")%string
           :: map (fun m => ("    " ++ shlex_join h m ++ " \")%string) mids
           ++ [("    " ++ shlex_join h final)%string]).
Proof.
  split; [reflexivity|]. split.
  - intros g. unfold announce_to. simpl. now rewrite string_append_empty.
  - intros g mids final. unfold announce_to.
    cbn [_groups length seq combine map].
    replace (Nat.eqb 0 (S (length (mids ++ [final])) - 1)) with false
      by (symmetry; apply Nat.eqb_neq; rewrite length_app; simpl; lia).
    cbn [Nat.eqb]. f_equal.
    apply announce_tail; [lia|]. rewrite length_app. simpl. lia.
Qed.

(** *** [random_hostname] *)

Lemma hex_tail_digit (n : N) :
  (n <= 15)%N ->
  exists c, Py.hex_tail n = String c EmptyString /\ is_hex_digit c = true.
Proof.
  intros H.
  assert (In n (map N.of_nat (seq 0 16))) as Hin.
  { apply in_map_iff. exists (N.to_nat n). split; [apply N2Nat.id|].
    apply in_seq. lia. }
  revert Hin. generalize n. clear n H. intros m Hm. simpl in Hm.
  repeat (destruct Hm as [<-|Hm]; [eexists; split; reflexivity|]).
  contradiction.
Qed.

(** X6. When every draw is a number from 0 to 15, as [random.randint(0, 15)]
    gives, the host name is made of exactly twelve lower-case hexadecimal
    digits. *)
Theorem random_hostname_hex (h : Host) :
  (forall i, i < 12 -> (random_randint h i <= 15)%N) ->
  String.length (random_hostname h) = 12
  /\ string_forall is_hex_digit (random_hostname h) = true.
Proof.
  intros H. unfold random_hostname, Py.join.
  cbn [seq map String.concat].
  repeat match goal with
         | |- context [Py.hex_tail (random_randint h ?i)] =>
             let c := fresh "c" in
             let Hc := fresh "Hc" in
             destruct (hex_tail_digit (random_randint h i) ltac:(apply H; lia))
               as (c & -> & Hc)
         end.
  cbn [String.append String.length string_forall].
  repeat match goal with Hc : is_hex_digit _ = true |- _ => rewrite Hc; clear Hc end.
  now split.
Qed.

(** *** What [create_bwrap_argv] plans *)

Section PlanShape.

Variable h : Host.

(** The tasks and the environment that [build_plan] returns. *)
Lemma build_plan_tasks (config : Config) (s s1 : State h) (plan : Plan) :
  build_plan h config s = (Ok plan, s1) ->
  mount_tasks plan
  = baseline_mount_tasks (os_path_expanduser h "~")
    ++ (if network config then
          [ mkMountTask BIND_RO "/run/NetworkManager/resolv.conf" None false;
            mkMountTask BIND_RO "/run/systemd/resolve/stub-resolv.conf" None false ]
        else [])
    ++ (if pulseaudio config then [MountTask_default BIND_RW (pulseaudio_socket h)]
        else [])
    ++ (match x11_unix_socket plan with
        | Some sock => [MountTask_default BIND_RW sock]
        | None => []
        end)
    ++ (match dotwine config with
        | Some dw =>
            match parse_path_colon_access dw with
            | Ok (src, access) =>
                [mkMountTask (bind_mode_of access) (os_path_expanduser h "~/.wine")
                             (Some src) true]
            | Raise _ => []
            end
        | None => [MountTask_default TMPFS (os_path_expanduser h "~/.wine")]
        end)
    ++ flat_map (extra_bind_task h) (extra_binds config)
    ++ program_tasks h config
  /\ x11_unix_socket plan
     = (if x11_enabled (x11 config)
        then option_map (get_unix_socket h) (x11_display_number config)
        else None)
  /\ (x11_enabled (x11 config) = true -> x11_display_number config <> None)
  /\ env_tasks plan
     = map (fun k => (k, None)) inherited
       ++ [("container", Some "sandwine"); ("HOSTNAME", Some (random_hostname h))]
       ++ (if pulseaudio config
           then [("PULSE_SERVER", Some ("unix:" ++ pulseaudio_socket h)%string)]
           else [])
       ++ (if x11_enabled (x11 config)
           then match x11_display_number config with
                | Some n => [("DISPLAY", Some (":" ++ Py.str_of_N n)%string)]
                | None => []
                end
           else []).
Proof.
  intros H.
  unfold build_plan, bind, ret, raise, lift, path_exists, makedirs, logged in H.
  unfold pulseaudio_socket.
  destruct (x11_enabled (x11 config)) eqn:Hx;
    [destruct (x11_display_number config)|]; simpl in H; try discriminate.
  all: destruct (dotwine config) as [dw|];
    [destruct (parse_path_colon_access dw) as [[src acc]|e];
     [destruct (os_path_exists h (world h s) src) eqn:Hex|]|];
    simpl in H; try discriminate.
  all: try match type of H with
       | context [os_makedirs_error h ?p ?w] =>
           destruct (os_makedirs_error h p w); simpl in H; [discriminate|]
       end.
  all: match type of H with
       | context [add_extra_binds h ?b ?t] =>
           destruct (add_extra_binds h b t) as [a|e] eqn:E
       end; simpl in H; try discriminate.
  all: apply add_extra_binds_ok in E; destruct E as [-> _].
  all: injection H as <- <-; cbn [mount_tasks x11_unix_socket env_tasks option_map].
  all: destruct (pulseaudio config), (network config); simpl.
  all: repeat split; try discriminate; try reflexivity.
  all: now rewrite <- ?app_assoc.
Qed.

(** The exceptions that leave [build_plan]. *)
Lemma build_plan_raise (config : Config) (s s1 : State h) (e : Exception) :
  build_plan h config s = (Raise e, s1) ->
  (exists b, e = ValueError b /\ malformed b = true
             /\ (dotwine config = Some b \/ In b (extra_binds config)))
  \/ (e = AttributeError "x11_display_number"
      /\ x11_enabled (x11 config) = true /\ x11_display_number config = None)
  \/ (exists src errname,
        e = OSError errname
        /\ dotwine_source config = Some src
        /\ os_path_exists h (world h s) src = false
        /\ os_makedirs_error h src (world h s) = Some errname).
Proof.
  intros H.
  unfold build_plan, bind, ret, raise, lift, path_exists, makedirs, logged in H.
  unfold dotwine_source.
  destruct (x11_enabled (x11 config)) eqn:Hx;
    [destruct (x11_display_number config)|]; simpl in H.
  2: { injection H as <- _. right. now left. }
  all: destruct (dotwine config) as [dw|];
    [destruct (parse_path_colon_access dw) as [[src acc]|e0] eqn:P;
     [destruct (os_path_exists h (world h s) src) eqn:Hex|]|];
    simpl in H.
  all: try match type of H with
       | context [os_makedirs_error h ?p ?w] =>
           destruct (os_makedirs_error h p w) as [errname|] eqn:Hmk; simpl in H;
           [injection H as <- _; right; right; exists src, errname; now repeat split|]
       end.
  all: left.
  all: try (injection H as <- _; exists dw;
            pose proof (parse_raise_inv _ _ P) as He; unfold malformed; rewrite P;
            split; [exact He|]; split; [reflexivity | now left]).
  all: (match type of H with
        | context [add_extra_binds h ?b ?t] =>
            destruct (add_extra_binds h b t) as [a|e0] eqn:E
        end); simpl in H; try discriminate.
  all: injection H as <- _.
  all: apply add_extra_binds_raise in E.
  all: destruct E as (good & bad & rest & Hb & _ & Hbad & ->).
  all: exists bad; rewrite Hb; split; [reflexivity|]; split; [exact Hbad|].
  all: right; apply in_or_app; right; now left.
Qed.

(** What [build_plan] does to the file system, whatever it returns. *)
Lemma build_plan_world (config : Config) (s : State h) :
  world h (snd (build_plan h config s)) = world h s
  \/ exists src, dotwine_source config = Some src
                 /\ os_path_exists h (world h s) src = false
                 /\ world h (snd (build_plan h config s)) = os_makedirs h src (world h s).
Proof.
  unfold build_plan, bind, ret, raise, lift, path_exists, makedirs, logged.
  unfold dotwine_source.
  destruct (x11_enabled (x11 config)) eqn:Hx;
    [destruct (x11_display_number config)|]; simpl; auto.
  all: destruct (dotwine config) as [dw|];
    [destruct (parse_path_colon_access dw) as [[src acc]|e0] eqn:P;
     [destruct (os_path_exists h (world h s) src) eqn:Hex|]|];
    simpl; auto.
  all: try (destruct (os_makedirs_error h _ _); simpl; [right; exists src; now auto|]).
  all: (match goal with
        | |- context [add_extra_binds h ?b ?t] =>
            destruct (add_extra_binds h b t) as [a|e0]
        end); simpl; auto.
  all: right; exists src; auto.
Qed.

End PlanShape.

(** *** What a returned argv holds *)

Section Returned.

Variable h : Host.

(** The parts of a run of [create_bwrap_argv] that returns, for the plan that
    [build_plan] made. *)
Lemma create_bwrap_argv_ok (config : Config) (s s1 s' : State h) (plan : Plan)
      (argv : ArgvBuilder) :
  build_plan h config s = (Ok plan, s1) ->
  create_bwrap_argv h config s = (Ok argv, s') ->
  exists path,
    Argv.iter_groups argv
    = _groups (Argv.add (argv_so_far plan) (unshare_args plan))
      ++ map mount_group
           (filter (fun t => negb (missing h (world h s1) config (x11_unix_socket plan) t))
                   (Py.sorted target (mount_tasks plan)))
      ++ [["--clearenv"]]
      ++ flat_map (env_group h) (Py.sorted fst (env_tasks plan ++ [("PATH", Some path)]))
      ++ [["--"]] ++ wrappers config (run_winecfg plan) ++ [inner_command h config]
    /\ (forall t, In t (mount_tasks plan) ->
                  missing h (world h s1) config (x11_unix_socket plan) t = true ->
                  required t = false)
    /\ world h s' = world h s1.
Proof.
  intros Hplan H.
  pose proof (create_bwrap_argv_inv h _ _ _ _ H) as Hinv.
  apply create_bwrap_argv_groups in H.
  destruct H as (plan0 & s0 & path & Hplan0 & _ & Hg).
  rewrite Hplan in Hplan0. injection Hplan0 as <- <-.
  destruct Hinv as (plan0 & s0 & argv1 & s2 & path' & Hplan0 & Hr & Hf & _).
  rewrite Hplan in Hplan0. injection Hplan0 as <- <-.
  exists path.
  destruct (build_plan_inv h _ _ _ _ Hplan) as (_ & _ & _ & _ & _ & Hpath & _).
  rewrite (dict_set_new _ _ _ Hpath) in Hg. split; [exact Hg|]. split.
  - intros t Hin. apply (render_ok_inv _ _ _ _ _ _ _ _ Hr). now apply in_sorted.
  - pose proof (filter_path_state h (Py.sorted target (mount_tasks plan)) s2) as Hs.
    rewrite Hf in Hs. simpl in Hs. subst s'.
    pose proof (render_world h config (x11_unix_socket plan)
                  (Py.sorted target (mount_tasks plan))
                  (Argv.add (argv_so_far plan) (unshare_args plan)) s1) as Hw.
    now rewrite Hr in Hw.
Qed.

Lemma create_bwrap_argv_plan (config : Config) (s s' : State h) (argv : ArgvBuilder) :
  create_bwrap_argv h config s = (Ok argv, s') ->
  exists plan s1, build_plan h config s = (Ok plan, s1).
Proof.
  intros H. apply create_bwrap_argv_inv in H.
  destruct H as (plan & s1 & _ & _ & _ & Hplan & _). now exists plan, s1.
Qed.

Lemma required_rendered (config : Config) (s s1 s' : State h) (plan : Plan)
      (argv : ArgvBuilder) (t : MountTask) :
  build_plan h config s = (Ok plan, s1) ->
  create_bwrap_argv h config s = (Ok argv, s') ->
  In t (mount_tasks plan) ->
  required t = true ->
  In (mount_group t) (Argv.iter_groups argv).
Proof.
  intros Hplan H Hin Hreq.
  destruct (create_bwrap_argv_ok _ _ _ _ _ _ Hplan H) as (path & -> & Hmiss & _).
  apply in_or_app. right. apply in_or_app. left.
  apply in_map, filter_In. split; [now apply in_sorted|].
  destruct (missing h (world h s1) config (x11_unix_socket plan) t) eqn:Hm;
    [|reflexivity].
  rewrite (Hmiss t Hin Hm) in Hreq. discriminate.
Qed.

(** X9. In an argv that [create_bwrap_argv] returns, every task of the plan
    has its group, except binds that are not required, whose source does not
    exist and which are not on the display socket: no required task can have
    been skipped. *)
Theorem plan_tasks_rendered (config : Config) (s s1 s' : State h) (plan : Plan)
    (argv : ArgvBuilder) (t : MountTask) :
  build_plan h config s = (Ok plan, s1) ->
  create_bwrap_argv h config s = (Ok argv, s') ->
  In t (mount_tasks plan) ->
  In (mount_group t) (Argv.iter_groups argv)
  \/ (required t = false /\ is_bind (mode t) = true
      /\ os_path_exists h (world h s1) (source_or_target t) = false
      /\ is_display_socket config (x11_unix_socket plan) t = false).
Proof.
  intros Hplan H Hin.
  destruct (create_bwrap_argv_ok _ _ _ _ _ _ Hplan H) as (path & -> & Hmiss & _).
  destruct (missing h (world h s1) config (x11_unix_socket plan) t) eqn:Hm.
  - right. split; [now apply Hmiss|].
    unfold missing in Hm. apply andb_prop in Hm. destruct Hm as [Hb Hm].
    apply andb_prop in Hm. destruct Hm as [Hex Hsock].
    apply negb_true_iff in Hex, Hsock. now repeat split.
  - left. apply in_or_app. right. apply in_or_app. left.
    apply in_map, filter_In. split; [now apply in_sorted|]. now rewrite Hm.
Qed.

Lemma env_task_rendered (config : Config) (s s1 s' : State h) (plan : Plan)
      (argv : ArgvBuilder) (name value : string) :
  build_plan h config s = (Ok plan, s1) ->
  create_bwrap_argv h config s = (Ok argv, s') ->
  In (name, Some value) (env_tasks plan) ->
  In ["--setenv"; name; value] (Argv.iter_groups argv).
Proof.
  intros Hplan H Hin.
  destruct (create_bwrap_argv_ok _ _ _ _ _ _ Hplan H) as (path & -> & _ & _).
  apply in_or_app. right. apply in_or_app. right.
  apply in_or_app. right. apply in_or_app. left.
  eapply env_groups_intro; [|now left].
  apply in_sorted, in_or_app. now left.
Qed.

(** X10. In an argv that [create_bwrap_argv] returns, every [--pass] token
    is well formed and has its bind of the absolute path onto itself:
    [--bind] for [rw], [--ro-bind] for [ro]. *)
Theorem pass_binds_rendered (config : Config) (s s' : State h) (argv : ArgvBuilder)
    (token : string) :
  create_bwrap_argv h config s = (Ok argv, s') ->
  In token (extra_binds config) ->
  exists path access,
    parse_path_colon_access token = Ok (path, access)
    /\ In [match access with READ_WRITE => "--bind" | READ_ONLY => "--ro-bind" end;
           os_path_abspath h path; os_path_abspath h path]
          (Argv.iter_groups argv).
Proof.
  intros H Hin.
  destruct (create_bwrap_argv_plan _ _ _ _ H) as (plan & s1 & Hplan).
  destruct (parse_path_colon_access token) as [[path access]|e] eqn:P.
  - exists path, access. split; [reflexivity|].
    pose (t := MountTask_default (bind_mode_of access) (os_path_abspath h path)).
    assert (In t (mount_tasks plan)) as Ht.
    { destruct (build_plan_tasks h _ _ _ _ Hplan) as (-> & _).
      do 5 (apply in_or_app; right). apply in_or_app. left.
      apply in_flat_map. exists token. split; [exact Hin|].
      unfold extra_bind_task. rewrite P. now left. }
    pose proof (required_rendered _ _ _ _ _ _ t Hplan H Ht eq_refl) as Hg.
    now destruct access.
  - exfalso.
    destruct (build_plan_malformed h config) with (s := s) as (e' & s2 & Hraise & _).
    { right. exists token. split; [exact Hin|]. unfold malformed. now rewrite P. }
    rewrite Hplan in Hraise. discriminate.
Qed.

(** X11. In an argv that [create_bwrap_argv] returns, the profile directory
    is always mounted: with [--dotwine SRC:rw] (or [:ro]) the host path is
    bound ([--bind], or [--ro-bind]) at [~/.wine]; without [--dotwine] a tmpfs
    is mounted there. *)
Theorem profile_directory_mounted (config : Config) (s s' : State h)
    (argv : ArgvBuilder) :
  create_bwrap_argv h config s = (Ok argv, s') ->
  match dotwine config with
  | Some token =>
      exists src access,
        parse_path_colon_access token = Ok (src, access)
        /\ In [match access with READ_WRITE => "--bind" | READ_ONLY => "--ro-bind" end;
               src; os_path_expanduser h "~/.wine"]
              (Argv.iter_groups argv)
  | None => In ["--tmpfs"; os_path_expanduser h "~/.wine"] (Argv.iter_groups argv)
  end.
Proof.
  intros H.
  destruct (create_bwrap_argv_plan _ _ _ _ H) as (plan & s1 & Hplan).
  destruct (build_plan_tasks h _ _ _ _ Hplan) as (Htasks & _).
  destruct (dotwine config) as [token|] eqn:Hd.
  - destruct (parse_path_colon_access token) as [[src access]|e] eqn:P.
    + exists src, access. split; [reflexivity|].
      pose (t := mkMountTask (bind_mode_of access) (os_path_expanduser h "~/.wine")
                             (Some src) true).
      assert (In t (mount_tasks plan)) as Ht.
      { rewrite Htasks. do 4 (apply in_or_app; right). apply in_or_app. left. now left. }
      pose proof (required_rendered _ _ _ _ _ _ t Hplan H Ht eq_refl) as Hg.
      now destruct access.
    + exfalso.
      destruct (build_plan_malformed h config) with (s := s) as (e' & s2 & Hraise & _).
      { left. exists token. split; [exact Hd|]. unfold malformed. now rewrite P. }
      rewrite Hplan in Hraise. discriminate.
  - pose (t := MountTask_default TMPFS (os_path_expanduser h "~/.wine")).
    assert (In t (mount_tasks plan)) as Ht.
    { rewrite Htasks. do 4 (apply in_or_app; right). apply in_or_app. left. now left. }
    exact (required_rendered _ _ _ _ _ _ t Hplan H Ht eq_refl).
Qed.

(** X12. With [--pulseaudio], an argv that [create_bwrap_argv] returns binds
    the PulseAudio socket of the user read-write onto itself and sets
    [PULSE_SERVER] to the [unix:] address of that same path. *)
Theorem pulseaudio_socket_exposed (config : Config) (s s' : State h)
    (argv : ArgvBuilder) :
  pulseaudio config = true ->
  create_bwrap_argv h config s = (Ok argv, s') ->
  In ["--bind"; pulseaudio_socket h; pulseaudio_socket h] (Argv.iter_groups argv)
  /\ In ["--setenv"; "PULSE_SERVER"; ("unix:" ++ pulseaudio_socket h)%string]
        (Argv.iter_groups argv).
Proof.
  intros Hp H.
  destruct (create_bwrap_argv_plan _ _ _ _ H) as (plan & s1 & Hplan).
  destruct (build_plan_tasks h _ _ _ _ Hplan) as (Htasks & _ & _ & Henv).
  rewrite Hp in Htasks, Henv. split.
  - apply (required_rendered _ _ _ _ _ _
             (MountTask_default BIND_RW (pulseaudio_socket h)) Hplan H);
      [|reflexivity].
    rewrite Htasks. do 2 (apply in_or_app; right). apply in_or_app. left. now left.
  - apply (env_task_rendered _ _ _ _ _ _ _ _ Hplan H).
    rewrite Henv. do 2 (apply in_or_app; right). apply in_or_app. left. now left.
Qed.

(** X13. With a display enabled, an argv that [create_bwrap_argv] returns
    binds the display socket read-write onto itself and sets [DISPLAY] to the
    display number; and the loop renders a task on the display socket without
    looking at whether its source exists. *)
Theorem display_socket_exposed (config : Config) :
  (forall sock t rest argv (s : State h),
      is_bind (mode t) = true ->
      is_display_socket config sock t = true ->
      render_mount_tasks h config sock (t :: rest) argv s
      = render_mount_tasks h config sock rest (Argv.add argv (mount_group t))
          (logged s (EvExists (source_or_target t))))
  /\ (forall (s s' : State h) argv,
         x11_enabled (x11 config) = true ->
         create_bwrap_argv h config s = (Ok argv, s') ->
         exists n,
           x11_display_number config = Some n
           /\ In ["--bind"; get_unix_socket h n; get_unix_socket h n]
                 (Argv.iter_groups argv)
           /\ In ["--setenv"; "DISPLAY"; (":" ++ Py.str_of_N n)%string]
                 (Argv.iter_groups argv)).
Proof.
  split.
  - intros sock t rest argv s Hb Hsock.
    rewrite render_step_bind by exact Hb. cbn zeta.
    unfold missing. now rewrite Hsock, andb_false_r, andb_false_r.
  - intros s s' argv Hx H.
    destruct (create_bwrap_argv_plan _ _ _ _ H) as (plan & s1 & Hplan).
    destruct (build_plan_tasks h _ _ _ _ Hplan) as (Htasks & Hsock & Hnum & Henv).
    rewrite Hx in Hsock, Henv.
    destruct (x11_display_number config) as [n|]; [|now contradiction (Hnum Hx)].
    simpl in Hsock. rewrite Hsock in Htasks.
    exists n. split; [reflexivity|]. split.
    + apply (required_rendered _ _ _ _ _ _
               (MountTask_default BIND_RW (get_unix_socket h n)) Hplan H);
        [|reflexivity].
      rewrite Htasks. do 3 (apply in_or_app; right). apply in_or_app. left. now left.
    + apply (env_task_rendered _ _ _ _ _ _ _ _ Hplan H).
      rewrite Henv. do 3 (apply in_or_app; right). now left.
Qed.

End Returned.

(** *** The flags, the environment and the exceptions *)

Section Outcome.

Variable h : Host.

(** X14. An argv that [create_bwrap_argv] returns starts with the groups of
    the executor, its two fixed flags, the host name and the namespace flags,
    [--share-net] among them exactly with [--network]; the host name of the
    flag is the value of [HOSTNAME] in the environment, and the container
    marker is set. *)
Theorem argv_starts_with_fixed_flags (config : Config) (s s' : State h)
    (argv : ArgvBuilder) :
  create_bwrap_argv h config s = (Ok argv, s') ->
  (exists rest,
      Argv.iter_groups argv
      = [ ["bwrap"]; ["--disable-userns"]; ["--die-with-parent"];
          ["--hostname"; random_hostname h];
          ["--unshare-user"; "--unshare-all"]
            ++ (if network config then ["--share-net"] else []) ]
        ++ rest)
  /\ In ["--setenv"; "HOSTNAME"; random_hostname h] (Argv.iter_groups argv)
  /\ In ["--setenv"; "container"; "sandwine"] (Argv.iter_groups argv).
Proof.
  intros H.
  destruct (create_bwrap_argv_plan _ _ _ _ _ H) as (plan & s1 & Hplan).
  destruct (build_plan_inv h _ _ _ _ Hplan) as (_ & Hargv & Hun & _).
  destruct (build_plan_tasks h _ _ _ _ Hplan) as (_ & _ & _ & Henv).
  split; [|split].
  - destruct (create_bwrap_argv_ok _ _ _ _ _ _ _ Hplan H) as (path & -> & _ & _).
    eexists. rewrite Hun. unfold Argv.add. rewrite Hargv.
    destruct (network config); simpl; reflexivity.
  - apply (env_task_rendered _ _ _ _ _ _ _ _ _ Hplan H).
    rewrite Henv. apply in_or_app. right. simpl. tauto.
  - apply (env_task_rendered _ _ _ _ _ _ _ _ _ Hplan H).
    rewrite Henv. apply in_or_app. right. simpl. tauto.
Qed.

(** X15. Of the host environment only [HOME], [TERM], [USER] and
    [WINEDEBUG] can reach the sandbox: every variable set between
    [--clearenv] and [--] is one of these, [container], [HOSTNAME], [PATH],
    [PULSE_SERVER] (only with [--pulseaudio]) or [DISPLAY] (only with a
    display); and [PATH] is always set. *)
Theorem environment_names (config : Config) (s s' : State h) (argv : ArgvBuilder) :
  create_bwrap_argv h config s = (Ok argv, s') ->
  exists pre envs post,
    Argv.iter_groups argv = pre ++ [["--clearenv"]] ++ envs ++ [["--"]] ++ post
    /\ ~ In ["--clearenv"] pre
    /\ ~ In ["--"] envs
    /\ (forall g, In g envs -> In (nth 1 g "") (env_names config))
    /\ exists path, In ["--setenv"; "PATH"; path] envs.
Proof.
  intros H.
  destruct (create_bwrap_argv_plan _ _ _ _ _ H) as (plan & s1 & Hplan).
  destruct (build_plan_inv h _ _ _ _ Hplan) as (_ & Hargv & Hun & _).
  destruct (build_plan_tasks h _ _ _ _ Hplan) as (_ & _ & Hnum & Henv).
  destruct (create_bwrap_argv_ok _ _ _ _ _ _ _ Hplan H) as (path & -> & _ & _).
  exists (_groups (Argv.add (argv_so_far plan) (unshare_args plan))
          ++ map mount_group
               (filter (fun t => negb (missing h (world h s1) config
                                         (x11_unix_socket plan) t))
                       (Py.sorted target (mount_tasks plan)))),
    (flat_map (env_group h)
              (Py.sorted fst (env_tasks plan ++ [("PATH", Some path)]))),
    (wrappers config (run_winecfg plan) ++ [inner_command h config]).
  split; [now rewrite <- !app_assoc|].
  split; [|split; [|split]].
  - intros Hin. apply in_app_or in Hin. destruct Hin as [Hin|Hin].
    + rewrite Hun in Hin. unfold Argv.add in Hin. simpl in Hin.
      rewrite Hargv in Hin. simpl in Hin.
      destruct (network config); simpl in Hin; intuition discriminate.
    + apply in_map_iff in Hin. destruct Hin as (t & Ht & _).
      unfold mount_group in Ht. now destruct (mode t).
  - intros Hin. apply env_groups_inv in Hin.
    now destruct Hin as (name & value & v0 & Hg & _).
  - intros g Hg. apply env_groups_inv in Hg.
    destruct Hg as (name & value & v0 & -> & Hin & _). cbn [nth].
    eapply Permutation_in in Hin; [|apply sorted_Permutation].
    apply (in_map fst) in Hin. cbn [fst] in Hin.
    rewrite map_app, Henv, !map_app, map_map in Hin.
    unfold env_names.
    apply in_app_or in Hin. destruct Hin as [Hin|Hin];
      [apply in_app_or in Hin; destruct Hin as [Hin|Hin];
       [|apply in_app_or in Hin; destruct Hin as [Hin|Hin];
         [|apply in_app_or in Hin; destruct Hin as [Hin|Hin]]]|].
    + apply in_or_app. left. simpl in *. tauto.
    + apply in_or_app. right. simpl in *. tauto.
    + apply in_or_app. right. apply in_or_app. right. apply in_or_app. left.
      destruct (pulseaudio config); exact Hin.
    + apply in_or_app. right. apply in_or_app. right. apply in_or_app. right.
      destruct (x11_enabled (x11 config)); [|exact Hin].
      destruct (x11_display_number config); [exact Hin | easy].
    + apply in_or_app. right. simpl in *. tauto.
  - exists path. eapply env_groups_intro; [|now left].
    apply in_sorted, in_or_app. right. now left.
Qed.

(** The exceptions that the plan, the loop over the mount tasks and the
    search-path filter can raise. *)
Lemma create_bwrap_argv_raise (config : Config) (s s' : State h) (e : Exception) :
  create_bwrap_argv h config s = (Raise e, s') ->
  (exists b, e = ValueError b /\ malformed b = true
             /\ (dotwine config = Some b \/ In b (extra_binds config)))
  \/ (e = AttributeError "x11_display_number"
      /\ x11_enabled (x11 config) = true /\ x11_display_number config = None)
  \/ (exists src errname,
        e = OSError errname
        /\ dotwine_source config = Some src
        /\ os_path_exists h (world h s) src = false
        /\ os_makedirs_error h src (world h s) = Some errname)
  \/ (e = SystemExit 1
      /\ exists plan s1 t,
          build_plan h config s = (Ok plan, s1)
          /\ In t (mount_tasks plan) /\ is_bind (mode t) = true /\ required t = true
          /\ os_path_exists h (world h s1) (source_or_target t) = false)
  \/ (e = KeyError "PATH" /\ os_environ_get h "PATH" = None).
Proof.
  unfold create_bwrap_argv, bind at 1.
  destruct (build_plan h config s) as [[plan|e0] s1] eqn:Hplan.
  - unfold bind at 1.
    destruct (render_mount_tasks _ _ _ _ _ _) as [[argv1|e1] s2] eqn:Hr.
    + unfold bind at 1, filter_path.
      destruct (os_environ_get h "PATH") eqn:Hpath.
      * unfold bind, realpath_all, ret. simpl. discriminate.
      * unfold raise. intros H. injection H as <- _. now do 4 right.
    + intros H. injection H as <- _.
      apply render_raise in Hr. destruct Hr as (-> & t & Hin & Hm & Hreq).
      right. right. right. left. split; [reflexivity|].
      exists plan, s1, t. split; [reflexivity|].
      split; [eapply Permutation_in; [apply sorted_Permutation | exact Hin]|].
      unfold missing in Hm. apply andb_prop in Hm. destruct Hm as [Hb Hm].
      apply andb_prop in Hm. destruct Hm as [Hex _].
      apply negb_true_iff in Hex. now repeat split.
  - intros H. injection H as <- _.
    apply build_plan_raise in Hplan.
    destruct Hplan as [Hv|[Ha|Hmk]]; [now left | right; now left|].
    right. right. now left.
Qed.

(** Every exception that leaves [create_bwrap_argv] ends the interpreter
    with status 1. *)
Lemma create_bwrap_argv_raise_status {A : Type} (config : Config) (s s' : State h)
      (e : Exception) :
  create_bwrap_argv h config s = (Raise e, s') -> exit_status (@Raise A e) = 1%Z.
Proof.
  intros H. apply create_bwrap_argv_raise in H.
  destruct H as [(b & -> & _)|[(-> & _)|[(src & errname & -> & _)|[(-> & _)|(-> & _)]]]];
    reflexivity.
Qed.


(** X16. On a host without [PATH], [create_bwrap_argv] returns no argv,
    whatever the options, and [main] ends with status 1 without calling the
    executor. *)
Theorem host_without_path (config : Config) (s : State h) :
  os_environ_get h "PATH" = None ->
  (exists e, fst (create_bwrap_argv h config s) = Raise e)
  /\ exit_status (fst (main h config s)) = 1%Z
  /\ executor_calls (trace h (snd (main h config s))) = executor_calls (trace h s).
Proof.
  intros Hpath.
  assert (forall cfg s0, exists e s2,
             create_bwrap_argv h cfg s0 = (Raise e, s2)
             /\ exit_status (@Raise unit e) = 1%Z) as Hraise.
  { intros cfg s0.
    destruct (create_bwrap_argv h cfg s0) as [[argv|e] s2] eqn:H.
    - exfalso. apply create_bwrap_argv_inv in H.
      destruct H as (plan & s1 & argv1 & s3 & path & _ & _ & Hf & _).
      unfold filter_path in Hf. rewrite Hpath in Hf. discriminate.
    - exists e, s2. split; [reflexivity|].
      exact (create_bwrap_argv_raise_status _ _ _ _ H). }
  split.
  - destruct (Hraise config s) as (e & s2 & He & _). exists e. now rewrite He.
  - apply main_without_argv. intros s1. apply Hraise.
Qed.

(** X21. [create_bwrap_argv] leaves the file system as it is, except that
    it creates the directory that [--dotwine] names when that does not
    exist; this holds whether it returns or raises. *)
Theorem create_bwrap_argv_file_system (config : Config) (s : State h) :
  world h (snd (create_bwrap_argv h config s)) = world h s
  \/ exists src,
      dotwine_source config = Some src
      /\ os_path_exists h (world h s) src = false
      /\ world h (snd (create_bwrap_argv h config s)) = os_makedirs h src (world h s).
Proof.
  assert (world h (snd (create_bwrap_argv h config s))
          = world h (snd (build_plan h config s))) as Hw.
  { unfold create_bwrap_argv, bind at 1.
    destruct (build_plan h config s) as [[plan|e0] s1]; [|reflexivity].
    unfold bind at 1.
    pose proof (render_world h config (x11_unix_socket plan)
                  (Py.sorted target (mount_tasks plan))
                  (Argv.add (argv_so_far plan) (unshare_args plan)) s1) as Hr.
    destruct (render_mount_tasks _ _ _ _ _ _) as [[argv1|e1] s2]; [|exact Hr].
    unfold bind at 1.
    pose proof (filter_path_state h (Py.sorted target (mount_tasks plan)) s2) as Hf.
    destruct (filter_path _ _ _) as [[path|e2] s3]; simpl in *; now subst. }
  rewrite Hw. apply build_plan_world.
Qed.

(** X22. The only tasks of a plan that may be skipped are read-only binds:
    [/lib32], the two resolver files that [--network] adds, and the program
    path with its two [.exe] spellings; every other task is required. *)
Theorem optional_tasks (config : Config) (s s1 : State h) (plan : Plan)
    (t : MountTask) :
  build_plan h config s = (Ok plan, s1) ->
  In t (mount_tasks plan) ->
  required t = false ->
  mode t = BIND_RO /\ source t = None
  /\ (target t = "/lib32"
      \/ (network config = true
          /\ (target t = "/run/NetworkManager/resolv.conf"
              \/ target t = "/run/systemd/resolve/stub-resolv.conf"))
      \/ exists program,
          argv_0 config = Some program /\ Py.contains "/" program = true
          /\ (target t = os_path_abspath h program
              \/ target t = (os_path_abspath h program ++ ".exe")%string
              \/ target t = (os_path_abspath h program ++ ".EXE")%string)).
Proof.
  intros Hplan Hin Hreq.
  destruct (build_plan_tasks h _ _ _ _ Hplan) as (Htasks & _).
  rewrite Htasks in Hin.
  repeat (apply in_app_or in Hin; destruct Hin as [Hin|Hin]).
  - simpl in Hin.
    repeat (destruct Hin as [<-|Hin]; [try discriminate Hreq; simpl; tauto|]).
    easy.
  - destruct (network config); [|easy]. simpl in Hin.
    destruct Hin as [<-|[<-|[]]]; simpl; tauto.
  - destruct (pulseaudio config); [|easy].
    destruct Hin as [<-|[]]. discriminate.
  - destruct (x11_unix_socket plan); [|easy].
    destruct Hin as [<-|[]]. discriminate.
  - destruct (dotwine config) as [dw|].
    + destruct (parse_path_colon_access dw) as [[src acc]|e]; [|easy].
      destruct Hin as [<-|[]]. discriminate.
    + destruct Hin as [<-|[]]. discriminate.
  - apply in_flat_map in Hin. destruct Hin as (b & _ & Hin).
    unfold extra_bind_task in Hin.
    destruct (parse_path_colon_access b) as [[p m]|e]; [|easy].
    destruct Hin as [<-|[]]. discriminate.
  - unfold program_tasks in Hin.
    destruct (argv_0 config) as [program|]; [|easy].
    destruct (Py.contains Py.os_sep program) eqn:Hc; [|easy].
    simpl in Hin. destruct Hin as [<-|[<-|[<-|[]]]]; simpl;
      (split; [reflexivity|]; split; [reflexivity|]; right; right;
       exists program; tauto).
Qed.

End Outcome.

(** *** [require_recent_bubblewrap] and [main] *)

Section Main.

Variable h : Host.


Lemma resolve_x11_number (config : Config) :
  x11_enabled (x11 (resolve_x11 h config)) = true ->
  x11_display_number (resolve_x11 h config) <> None.
Proof.
  unfold resolve_x11. destruct (x11_enabled (x11 config)) eqn:Hx; simpl.
  - discriminate.
  - now rewrite Hx.
Qed.





(** X19. When the capability probe does not return 0, or the binary of the
    probe is not found, [main] ends with status 1 and has done nothing but
    the probe: no path was looked at, no directory made, no executor called. *)
Theorem main_probe_failure (config : Config) (s : State h) :
  subprocess_call h probe <> Some 0%Z ->
  exit_status (fst (main h config s)) = 1%Z
  /\ snd (main h config s) = logged s (EvCall probe).
Proof.
  intros Hprobe. rewrite main_unfold.
  destruct (subprocess_call h probe) as [rc|]; [|now split].
  destruct (Z.eqb_spec rc 0) as [->|Hrc]; [now contradiction Hprobe | now split].
Qed.

(** X20. When the capability probe succeeds and [create_bwrap_argv] raises,
    [main] lets the exception through: the status is 1, the executor is not
    called, and since [main] sets the display number whenever a display is
    enabled, the exception is never an [AttributeError]. *)
Theorem main_builder_failure (config : Config) (s s2 : State h) (e : Exception) :
  subprocess_call h probe = Some 0%Z ->
  create_bwrap_argv h (resolve_x11 h config) (logged s (EvCall probe)) = (Raise e, s2) ->
  main h config s = (Raise e, s2)
  /\ exit_status (fst (main h config s)) = 1%Z
  /\ executor_calls (trace h (snd (main h config s))) = executor_calls (trace h s)
  /\ forall name, e <> AttributeError name.
Proof.
  intros Hprobe H.
  pose proof (quiet_create_bwrap_argv h (resolve_x11 h config) (logged s (EvCall probe)))
    as Hq.
  rewrite main_unfold, Hprobe. simpl. rewrite H in Hq |- *. simpl in Hq |- *.
  pose proof (create_bwrap_argv_raise_status (A:=unit) _ _ _ _ _ H) as Hstatus.
  apply create_bwrap_argv_raise in H.
  split; [reflexivity|].
  split; [exact Hstatus|].
  split; [rewrite Hq; apply executor_calls_probe|].
  intros name ->.
  destruct H as [(b & Hb & _)|[(_ & Hx & Hnum)|[(src & errname & Hb & _)|[(Hb & _)|(Hb & _)]]]];
    try discriminate.
  now apply resolve_x11_number in Hx.
Qed.

End Main.

(** *** The command to run *)

(** X23. The last group of an argv that [create_bwrap_argv] returns is the
    command to run: [true] when no program was given; with [--no-pty] the
    program, behind [wine] unless [--no-wine], followed by its arguments as
    they were given; otherwise [script -e -q -c] with [exec] and the quoted
    command, and [/dev/null]. *)
Theorem argv_ends_with_command (h : Host) (config : Config) (s s' : State h)
    (argv : ArgvBuilder) :
  create_bwrap_argv h config s = (Ok argv, s') ->
  last (Argv.iter_groups argv) []
  = match argv_0 config with
    | None => ["true"]
    | Some program =>
        let inner_argv :=
          (if with_wine config then ["wine"; program] else [program])
          ++ argv_1_plus config in
        if with_pty config then
          ["script"; "-e"; "-q"; "-c"; ("exec " ++ shlex_join h inner_argv)%string;
           "/dev/null"]
        else inner_argv
    end.
Proof.
  intros H.
  destruct (create_bwrap_argv_plan _ _ _ _ _ H) as (plan & s1 & Hplan).
  destruct (create_bwrap_argv_ok _ _ _ _ _ _ _ Hplan H) as (path & -> & _ & _).
  rewrite !app_assoc, last_last. reflexivity.
Qed.

Lemma argv_ends_with_command_witness :
  let env := [("PATH", "/usr/bin")] in
  let h := Sample.host env in
  let s := Sample.start env Sample.usual in
  let cfg := mkConfig (Some "game.exe") ["-w"] X11_NONE None false false None []
                      false false true false in
  exists argv s',
    create_bwrap_argv h cfg s = (Ok argv, s')
    /\ last (Argv.iter_groups argv) [] = ["wine"; "game.exe"; "-w"].
Proof.
  intros env h s cfg.
  destruct (create_bwrap_argv h cfg s) as [[argv|e] s'] eqn:E;
    [|vm_compute in E; discriminate].
  exists argv, s'. split; [reflexivity|].
  exact (argv_ends_with_command h cfg s s' argv E).
Defined.

(** *** The further properties at concrete inputs *)

Lemma parent_target_first_witness :
  let parent := MountTask_default BIND_RO "/usr" in
  let child := MountTask_default TMPFS "/usr/lib" in
  Py.sorted target [child; parent] = [parent] ++ child :: []
  /\ In parent [parent].
Proof.
  intros parent child. split; [reflexivity|].
  apply (parent_target_first [child; parent] [parent] [] parent child "/lib");
    [simpl; tauto | reflexivity | discriminate | reflexivity].
Defined.

Lemma random_hostname_hex_witness :
  String.length (random_hostname (Sample.host [])) = 12
  /\ string_forall is_hex_digit (random_hostname (Sample.host [])) = true.
Proof.
  apply (random_hostname_hex (Sample.host [])).
  intros i Hi. simpl. lia.
Defined.

Lemma plan_tasks_rendered_witness :
  let env := [("PATH", "/usr/bin")] in
  let h := Sample.host env in
  let s := Sample.start env Sample.usual in
  let t := mkMountTask BIND_RO "/lib32" None false in
  exists argv s',
    create_bwrap_argv h Sample.config0 s = (Ok argv, s')
    /\ (In (mount_group t) (Argv.iter_groups argv)
        \/ (required t = false /\ is_bind (mode t) = true
            /\ os_path_exists h (world h s) (source_or_target t) = false
            /\ is_display_socket Sample.config0 None t = false)).
Proof.
  intros env h s t.
  destruct (create_bwrap_argv h Sample.config0 s) as [[argv|e] s'] eqn:E;
    [|vm_compute in E; discriminate].
  exists argv, s'. split; [reflexivity|].
  eapply (plan_tasks_rendered h Sample.config0 s _ s' _ argv t eq_refl E).
  vm_compute. tauto.
Defined.

Lemma pass_binds_rendered_witness :
  let env := [("PATH", "/usr/bin")] in
  let h := Sample.host env in
  let s := Sample.start env ("/opt/game" :: Sample.usual) in
  let cfg := Sample.config X11_NONE None None ["/opt/game:rw"] false true in
  exists argv s',
    create_bwrap_argv h cfg s = (Ok argv, s')
    /\ exists path access,
        parse_path_colon_access "/opt/game:rw" = Ok (path, access)
        /\ In [match access with READ_WRITE => "--bind" | READ_ONLY => "--ro-bind" end;
               path; path] (Argv.iter_groups argv).
Proof.
  intros env h s cfg.
  destruct (create_bwrap_argv h cfg s) as [[argv|e] s'] eqn:E;
    [|vm_compute in E; discriminate].
  exists argv, s'. split; [reflexivity|].
  apply (pass_binds_rendered h cfg s s' argv "/opt/game:rw" E). now left.
Defined.

Lemma profile_directory_mounted_witness :
  let env := [("PATH", "/usr/bin")] in
  let h := Sample.host env in
  let s := Sample.start env Sample.usual in
  exists argv s',
    create_bwrap_argv h Sample.config0 s = (Ok argv, s')
    /\ In ["--tmpfs"; "/home/u/.wine"] (Argv.iter_groups argv).
Proof.
  intros env h s.
  destruct (create_bwrap_argv h Sample.config0 s) as [[argv|e] s'] eqn:E;
    [|vm_compute in E; discriminate].
  exists argv, s'. split; [reflexivity|].
  exact (profile_directory_mounted h Sample.config0 s s' argv E).
Defined.

Lemma pulseaudio_socket_exposed_witness :
  let env := [("PATH", "/usr/bin")] in
  let h := Sample.host env in
  let s := Sample.start env ("/run/user/1000/pulse/native" :: Sample.usual) in
  let cfg := mkConfig None [] X11_NONE None false true None [] false true true false in
  exists argv s',
    create_bwrap_argv h cfg s = (Ok argv, s')
    /\ In ["--bind"; "/run/user/1000/pulse/native"; "/run/user/1000/pulse/native"]
          (Argv.iter_groups argv)
    /\ In ["--setenv"; "PULSE_SERVER"; "unix:/run/user/1000/pulse/native"]
          (Argv.iter_groups argv).
Proof.
  intros env h s cfg.
  destruct (create_bwrap_argv h cfg s) as [[argv|e] s'] eqn:E;
    [|vm_compute in E; discriminate].
  exists argv, s'. split; [reflexivity|].
  exact (pulseaudio_socket_exposed h cfg s s' argv eq_refl E).
Defined.

Lemma argv_starts_with_fixed_flags_witness :
  let env := [("PATH", "/usr/bin")] in
  let h := Sample.host env in
  let s := Sample.start env Sample.usual in
  exists argv s',
    create_bwrap_argv h Sample.config0 s = (Ok argv, s')
    /\ In ["--setenv"; "HOSTNAME"; "0123456789ab"] (Argv.iter_groups argv)
    /\ In ["--setenv"; "container"; "sandwine"] (Argv.iter_groups argv).
Proof.
  intros env h s.
  destruct (create_bwrap_argv h Sample.config0 s) as [[argv|e] s'] eqn:E;
    [|vm_compute in E; discriminate].
  exists argv, s'. split; [reflexivity|].
  exact (proj2 (argv_starts_with_fixed_flags h Sample.config0 s s' argv E)).
Defined.

Lemma environment_names_witness :
  let env := [("PATH", "/usr/bin"); ("DISPLAY", ":0"); ("SECRET", "x")] in
  let h := Sample.host env in
  let s := Sample.start env Sample.usual in
  exists argv s' pre envs post,
    create_bwrap_argv h Sample.config0 s = (Ok argv, s')
    /\ Argv.iter_groups argv = pre ++ [["--clearenv"]] ++ envs ++ [["--"]] ++ post
    /\ forall g, In g envs -> In (nth 1 g "") (env_names Sample.config0).
Proof.
  intros env h s.
  destruct (create_bwrap_argv h Sample.config0 s) as [[argv|e] s'] eqn:E;
    [|vm_compute in E; discriminate].
  destruct (environment_names h Sample.config0 s s' argv E)
    as (pre & envs & post & Hg & _ & _ & Hn & _).
  exists argv, s', pre, envs, post. now split.
Defined.

Lemma host_without_path_witness :
  let h := Sample.host [] in
  let s := Sample.start [] Sample.usual in
  (exists e, fst (create_bwrap_argv h Sample.config0 s) = Raise e)
  /\ exit_status (fst (main h Sample.config0 s)) = 1%Z
  /\ executor_calls (trace h (snd (main h Sample.config0 s))) = [].
Proof.
  intros h s. exact (host_without_path h Sample.config0 s eq_refl).
Defined.



Lemma main_probe_failure_witness :
  let h := host_without_bwrap in
  let s := mkState h [] [] in
  exit_status (fst (main h Sample.config0 s)) = 1%Z
  /\ snd (main h Sample.config0 s) = logged s (EvCall probe).
Proof.
  intros h s. apply (main_probe_failure h Sample.config0 s). discriminate.
Defined.

Lemma main_builder_failure_witness :
  let env := [("PATH", "/usr/bin")] in
  let h := Sample.host env in
  let s := Sample.start env [] in
  exit_status (fst (main h Sample.config0 s)) = 1%Z
  /\ executor_calls (trace h (snd (main h Sample.config0 s))) = [].
Proof.
  intros env h s.
  destruct (create_bwrap_argv h (resolve_x11 h Sample.config0) (logged s (EvCall probe)))
    as [[argv|e] s2] eqn:E; [vm_compute in E; discriminate|].
  destruct (main_builder_failure h Sample.config0 s s2 e eq_refl E)
    as (_ & Hstatus & Hcalls & _).
  now split.
Defined.

Lemma optional_tasks_witness :
  let env := [("PATH", "/usr/bin")] in
  let h := Sample.host env in
  let s := Sample.start env Sample.usual in
  let t := mkMountTask BIND_RO "/lib32" None false in
  mode t = BIND_RO /\ source t = None
  /\ (target t = "/lib32"
      \/ (network Sample.config0 = true
          /\ (target t = "/run/NetworkManager/resolv.conf"
              \/ target t = "/run/systemd/resolve/stub-resolv.conf"))
      \/ exists program,
          argv_0 Sample.config0 = Some program /\ Py.contains "/" program = true
          /\ (target t = os_path_abspath h program
              \/ target t = (os_path_abspath h program ++ ".exe")%string
              \/ target t = (os_path_abspath h program ++ ".EXE")%string)).
Proof.
  intros env h s t.
  eapply (optional_tasks h Sample.config0 s _ _ t eq_refl);
    [vm_compute; tauto | reflexivity].
Defined.
